(** * ECDSA signature values: [crypto/signature.ts]

    A shallow embedding of the [Signature] class of [src.ts/crypto/signature.ts]
    and of the helpers it imports from [utils/index.js], followed by the
    properties of the multi-format constructor [Signature.from], of the
    chain-id helpers and of the freezable field store.

    Conventions of the embedding:
    - a JavaScript string is a [string]; a [Uint8Array] is a [list byte];
    - a [bigint], and a [number] holding an integer, is a [Z];
    - a function that may throw returns a [Result]; a method that may also
      write to the private [#props] store is a state transformer [Method];
    - an optional property of an input object is a [field], which keeps
      apart an absent key, a key holding [undefined] and a key holding a
      value, because the source tests both [x != null] and ["x" in sig]. *)

From Stdlib Require Import ZArith NArith List String Ascii Bool Lia.
From Stdlib Require Import Init.Byte.
From Stdlib Require Import DecimalString.
Import ListNotations.

Local Open Scope string_scope.

(** ** Values and errors *)

(** [BytesLike = string | Uint8Array]. *)
Inductive BytesLike : Type :=
| HexString (value : string)
| Uint8Array (value : list byte).

(** [BigNumberish] restricted to its integer inhabitants: a [bigint], or a
    [number] / numeric string denoting an integer. *)
Definition BigNumberish : Type := Z.

(** The key of an input object: absent, present and [undefined] (or
    [null], which every test of the source treats alike), or present with
    a value. *)
Inductive field (A : Type) : Type :=
| Missing
| Undefined
| Value (a : A).
Arguments Missing {A}.
Arguments Undefined {A}.
Arguments Value {A} a.

(** [x != null] followed by a use of [x]. *)
Definition notNull {A} (f : field A) : option A :=
  match f with Value a => Some a | _ => None end.

(** ["key" in sig]. *)
Definition hasKey {A} (f : field A) : bool :=
  match f with Missing => false | _ => true end.

(** The private store [#props] of an instance, with the flag that
    [Object.freeze] sets on it. *)
Record Props : Type := mkProps {
  r : string;
  s : string;
  v : Z;
  networkV : option Z
}.

Record Signature : Type := mkSignature {
  props : Props;
  frozen : bool
}.

(** The object alternatives of [SignatureLike], merged: every key is
    optional at run time, which is what [from] tests. *)
Record SignatureObject : Type := mkObject {
  sig_r : field string;
  sig_s : field string;
  sig_v : field BigNumberish;
  sig_yParity : field Z;
  sig_yParityAndS : field string
}.

(** [sig?: SignatureLike]. *)
Inductive SignatureLike : Type :=
| SigNull
| SigString (sig : string)
| SigInstance (sig : Signature)
| SigObject (sig : SignatureObject).

(** The value an argument error reports back. *)
Inductive Supplied : Type :=
| SuppliedBytes (value : BytesLike)
| SuppliedNumber (value : BigNumberish)
| SuppliedSignature (value : SignatureLike).

Inductive ErrorCode : Type :=
| INVALID_ARGUMENT
| UNSUPPORTED_OPERATION.

Record Error : Type := mkError {
  code : ErrorCode;
  message : string;
  argument : string;
  value : option Supplied
}.

Inductive Result (A : Type) : Type :=
| Ok (a : A)
| Throw (e : Error).
Arguments Ok {A} a.
Arguments Throw {A} e.

Definition bind {A B} (c : Result A) (k : A -> Result B) : Result B :=
  match c with
  | Ok a => k a
  | Throw e => Throw e
  end.

Declare Scope result_scope.
Delimit Scope result_scope with result.
Notation "x <- c ;; k" := (bind c (fun x => k))
  (at level 61, c at next level, right associativity) : result_scope.
Notation "c ;;; k" := (bind c (fun _ => k))
  (at level 61, right associativity) : result_scope.
Local Open Scope result_scope.

(** ** The imported helpers of [utils/index.js] *)

Module Utils.

(** Modelled from the spec: [assertArgument] is imported from
    [utils/index.js], which is not among the sources.  Section 7: a failure
    is an argument-validation error "carrying the failing field/parameter
    name, the offending supplied value, and a human-readable reason". *)
Definition assertArgument (check : bool) (message name : string)
    (value : Supplied) : Result unit :=
  if check then Ok tt
  else Throw (mkError INVALID_ARGUMENT message name (Some value)).

(** The value of one hexadecimal digit, in either case. *)
Definition digitValue (c : ascii) : option N :=
  let n := N_of_ascii c in
  if ((48 <=? n) && (n <=? 57))%N then Some (n - 48)%N
  else if ((97 <=? n) && (n <=? 102))%N then Some (n - 87)%N
  else if ((65 <=? n) && (n <=? 70))%N then Some (n - 55)%N
  else None.

(** [Uint8Array] element store: the value is reduced modulo 256. *)
Definition toUint8 (n : N) : byte :=
  match Byte.of_N (n mod 256) with
  | Some b => b
  | None => x00
  end.

(** The digits after the ["0x"] prefix, two by two. *)
Fixpoint parsePairs (digits : string) : option (list byte) :=
  match digits with
  | EmptyString => Some []
  | String hi (String lo rest) =>
      match digitValue hi, digitValue lo, parsePairs rest with
      | Some h, Some l, Some bytes => Some (toUint8 (16 * h + l) :: bytes)
      | _, _, _ => None
      end
  | String _ EmptyString => None
  end.

(** The match of [/^0x[0-9A-Fa-f]*$/]. *)
Fixpoint allHexDigits (digits : string) : bool :=
  match digits with
  | EmptyString => true
  | String c rest =>
      match digitValue c with
      | Some _ => allHexDigits rest
      | None => false
      end
  end.

Definition stripPrefix (value : string) : option string :=
  match value with
  | String "0" (String "x" digits) => Some digits
  | _ => None
  end.

(** Modelled from the spec: [getBytes] is imported from [utils/index.js],
    which is not among the sources.  The data model holds [r] and [s] as
    "fixed-width hex string"s of 32 bytes; [getBytes] decodes such a string
    (["0x"] then two hexadecimal digits per byte, in either case) and
    returns a byte array as it is; anything else is an argument error. *)
Definition getBytes (value : BytesLike) (name : string)
    : Result (list byte) :=
  match value with
  | Uint8Array bytes => Ok bytes
  | HexString str =>
      match stripPrefix str with
      | Some digits =>
          match parsePairs digits with
          | Some bytes => Ok bytes
          | None => Throw (mkError INVALID_ARGUMENT "invalid BytesLike value"
                             name (Some (SuppliedBytes value)))
          end
      | None => Throw (mkError INVALID_ARGUMENT "invalid BytesLike value"
                         name (Some (SuppliedBytes value)))
      end
  end.

(** The second argument of [isHexString]: absent, [true] or a byte count. *)
Inductive HexLength : Type :=
| AnyLength
| WholeBytes
| Bytes (length : nat).

(** Modelled from the spec: [isHexString] is imported from
    [utils/index.js], which is not among the sources.  It recognises a
    "fixed-width hex string": ["0x"] followed by hexadecimal digits, of
    which there are exactly two per byte of the requested width. *)
Definition isHexString (value : string) (length : HexLength) : bool :=
  match stripPrefix value with
  | Some digits =>
      allHexDigits digits &&
      match length with
      | AnyLength => true
      | WholeBytes => Nat.even (String.length value)
      | Bytes n => Nat.eqb (String.length value) (2 + 2 * n)
      end
  | None => false
  end.

Definition HexCharacters : string := "0123456789abcdef".

Definition hexCharacter (n : N) : ascii :=
  match String.get (N.to_nat n) HexCharacters with
  | Some c => c
  | None => "0"%char
  end.

(** The loop of [hexlify]: two lower-case digits per byte. *)
Fixpoint hexDigits (bytes : list byte) : string :=
  match bytes with
  | [] => EmptyString
  | b :: rest =>
      let n := Byte.to_N b in
      String (hexCharacter (N.shiftr (N.land n 240) 4))
        (String (hexCharacter (N.land n 15)) (hexDigits rest))
  end.

(** Modelled from the spec: [hexlify] is imported from [utils/index.js],
    which is not among the sources.  It is the encoder of the "fixed-width
    hex string": the bytes of its argument, two lower-case digits each,
    after ["0x"]. *)
Definition hexlify (data : BytesLike) : Result string :=
  bytes <- getBytes data "value" ;;
  Ok ("0x" ++ hexDigits bytes).

(** [str.substring(2)]. *)
Definition substring2 (str : string) : string :=
  match str with
  | String _ (String _ rest) => rest
  | _ => EmptyString
  end.

(** Modelled from the spec: [concat] is imported from [utils/index.js],
    which is not among the sources.  Section 3 writes [r || yParityAndS] and
    [r || s || v]: the hex string of the bytes of the items, in order. *)
Fixpoint concatDigits (datas : list BytesLike) : Result string :=
  match datas with
  | [] => Ok EmptyString
  | d :: rest =>
      h <- hexlify d ;;
      t <- concatDigits rest ;;
      Ok (substring2 h ++ t)
  end.

Definition concat (datas : list BytesLike) : Result string :=
  digits <- concatDigits datas ;;
  Ok ("0x" ++ digits).

(** Modelled from the spec: [dataLength] is imported from
    [utils/index.js], which is not among the sources.  It is the number of
    bytes a [BytesLike] denotes ("length(r) == 32 bytes"). *)
Definition dataLength (data : BytesLike) : Result nat :=
  match data with
  | HexString str =>
      if isHexString str WholeBytes
      then Ok ((String.length str - 2) / 2)
      else bytes <- getBytes data "value" ;; Ok (List.length bytes)
  | Uint8Array _ =>
      bytes <- getBytes data "value" ;; Ok (List.length bytes)
  end.

(** Modelled from the spec: [getBigInt] is imported from
    [utils/index.js], which is not among the sources.  On an integer it is
    the integer itself ("a raw non-negative integer"). *)
Definition getBigInt (value : BigNumberish) : Z := value.

Definition maxValue : Z := 9007199254740991.

(** Modelled from the spec: [getNumber] is imported from [utils/index.js],
    which is not among the sources.  It converts an integer to a [number],
    which holds it exactly up to [2^53 - 1]; beyond that it is an argument
    error. *)
Definition getNumber (value : BigNumberish) (name : string) : Result Z :=
  assertArgument ((- maxValue <=? value)%Z && (value <=? maxValue)%Z)
    "overflow" name (SuppliedNumber value) ;;;
  Ok value.

End Utils.

(** ** The class [Signature] *)

Import Utils.

(** A method: it may throw, and it may leave the instance changed. *)
Definition Method (A : Type) : Type := Signature -> Result A * Signature.

(** Modelled from the spec: [getStore] is imported from [utils/index.js],
    which is not among the sources.  Section 8: after [freeze] "all
    getters continue to return prior values"; it reads the key, frozen or
    not.  The four keys are the four projections of [Props]. *)
Definition getStore {A} (store : Signature) (key : Props -> A) : A :=
  key (props store).

(** Modelled from the spec: [setStore] is imported from [utils/index.js],
    which is not among the sources.  Section 3: an instance may be frozen,
    "after which every field becomes immutable and any further mutation
    attempt must fail"; on a store that is not frozen the key is written. *)
Definition setStore (key : string) (write : Props -> Props) : Method unit :=
  fun store =>
    if frozen store
    then (Throw (mkError UNSUPPORTED_OPERATION "frozen object is immutable"
                   key None), store)
    else (Ok tt, mkSignature (write (props store)) (frozen store)).

Definition write_r (value : string) (p : Props) : Props :=
  mkProps value (s p) (v p) (networkV p).
Definition write_s (value : string) (p : Props) : Props :=
  mkProps (r p) value (v p) (networkV p).
Definition write_v (value : Z) (p : Props) : Props :=
  mkProps (r p) (s p) value (networkV p).
Definition write_networkV (value : Z) (p : Props) : Props :=
  mkProps (r p) (s p) (v p) (Some value).

(** A validation that throws leaves the store as it was; one that returns
    hands its value to the store write. *)
Definition validated {A} (check : Result A) (store : A -> Method unit)
    : Method unit :=
  fun this =>
    match check with
    | Ok a => store a this
    | Throw e => (Throw e, this)
    end.

(** [bytes[0]], which is [undefined] on an empty array and then behaves as
    0 under [&]. *)
Definition first (bytes : list byte) : N := Byte.to_N (hd x00 bytes).

(** [(bytes[0] & 0x80)] as a condition. *)
Definition highBit (bytes : list byte) : bool :=
  negb (N.land (first bytes) 128 =? 0)%N.

(** [bytes[0] &= 0x7f]; a write past the end of a typed array is dropped. *)
Definition clearHighBit (bytes : list byte) : list byte :=
  match bytes with
  | [] => []
  | b :: rest => toUint8 (N.land (Byte.to_N b) 127) :: rest
  end.

(** [bytes[0] |= 0x80]. *)
Definition setHighBit (bytes : list byte) : list byte :=
  match bytes with
  | [] => []
  | b :: rest => toUint8 (N.lor (Byte.to_N b) 128) :: rest
  end.

(** [bytes.slice(start, end)]. *)
Definition slice (start finish : nat) (bytes : list byte) : list byte :=
  firstn (finish - start) (skipn start bytes).

Definition get_r (this : Signature) : string := getStore this r.

Definition set_r (value : BytesLike) : Method unit :=
  validated
    (len <- dataLength value ;;
     assertArgument (Nat.eqb len 32) "invalid r" "value"
       (SuppliedBytes value) ;;;
     hexlify value)
    (fun hex => setStore "r" (write_r hex)).

Definition get_s (this : Signature) : string := getStore this s.

Definition set_s (value : BytesLike) : Method unit :=
  validated
    (len <- dataLength value ;;
     assertArgument (Nat.eqb len 32) "invalid r" "value"
       (SuppliedBytes value) ;;;
     bytes <- getBytes value "value" ;;
     assertArgument (N.land (first bytes) 128 =? 0)%N "non-canonical s"
       "value" (SuppliedBytes value) ;;;
     hexlify value)
    (fun hex => setStore "s" (write_s hex)).

Definition get_v (this : Signature) : Z := getStore this v.

Definition set_v (value : BigNumberish) : Method unit :=
  validated
    (v <- getNumber value "value" ;;
     assertArgument ((v =? 27)%Z || (v =? 28)%Z) "invalid v" "v"
       (SuppliedNumber value) ;;;
     Ok v)
    (fun v => setStore "v" (write_v v)).

Definition get_networkV (this : Signature) : option Z :=
  getStore this networkV.

Definition get_yParity (this : Signature) : Z :=
  if (get_v this =? 27)%Z then 0%Z else 1%Z.

(** The EIP-2098 compact representation. *)
Definition get_yParityAndS (this : Signature) : Result string :=
  yParityAndS <- getBytes (HexString (get_s this)) "value" ;;
  let yParityAndS :=
    if (get_yParity this =? 0)%Z then yParityAndS
    else setHighBit yParityAndS in
  hexlify (Uint8Array yParityAndS).

Definition get_compactSerialized (this : Signature) : Result string :=
  yParityAndS <- get_yParityAndS this ;;
  concat [HexString (get_r this); HexString yParityAndS].

Definition get_serialized (this : Signature) : Result string :=
  concat [HexString (get_r this); HexString (get_s this);
          HexString (if (get_yParity this =? 0)%Z then "0x1b" else "0x1c")].

(** [new Signature(_guard, r, s, v)]: inside the module the guard is the
    private token, so [assertPrivate] passes. *)
Definition new (r s : string) (v : Z) : Signature :=
  mkSignature (mkProps r s v None) false.

(** [if (networkV) { setStore(target.#props, "networkV", networkV); }]:
    a [bigint] is truthy unless it is [0n]; [null] and [undefined] are
    not. *)
Definition storeNetworkV (networkV : option Z) (target : Signature)
    : Result Signature :=
  match networkV with
  | Some n =>
      if (n =? 0)%Z then Ok target
      else
        match setStore "networkV" (write_networkV n) target with
        | (Ok _, target') => Ok target'
        | (Throw e, _) => Throw e
        end
  | None => Ok target
  end.

Definition clone (this : Signature) : Result Signature :=
  let clone := new (get_r this) (get_s this) (get_v this) in
  storeNetworkV (get_networkV this) clone.

Definition freeze : Method unit :=
  fun this => (Ok tt, mkSignature (props this) true).

Definition isFrozen (this : Signature) : bool := frozen this.

(** [networkV.toString()]: the decimal digits of a [bigint], after a minus
    sign when it is negative. *)
Definition toString (n : Z) : string := NilZero.string_of_int (Z.to_int n).

(** The object [toJSON()] returns, with its keys in the order of the
    source. *)
Record SignatureJSON : Type := mkJSON {
  json_type : string;
  json_networkV : option string;
  json_r : string;
  json_s : string;
  json_v : Z
}.

Definition toJSON (this : Signature) : SignatureJSON :=
  let networkV := get_networkV this in
  mkJSON "signature"
    (match networkV with
     | Some n => Some (toString n)
     | None => None
     end)
    (get_r this) (get_s this) (get_v this).

(** Get the chain ID from an EIP-155 v.  [/] on [bigint] truncates, which
    is [Z.quot]. *)
Definition getChainId (v : BigNumberish) : Result Z :=
  let bv := getBigInt v in
  if ((bv =? 27) || (bv =? 28))%Z then Ok 0%Z
  else
    assertArgument (35 <=? bv)%Z "invalid EIP-155 v" "v"
      (SuppliedNumber v) ;;;
    Ok (Z.quot (bv - 35) 2).

Definition get_legacyChainId (this : Signature) : Result (option Z) :=
  match get_networkV this with
  | None => Ok None
  | Some v => c <- getChainId v ;; Ok (Some c)
  end.

(** Get the EIP-155 v transformed for a given chainId. *)
Definition getChainIdV (chainId : BigNumberish) (v : Z) : Z :=
  (getBigInt chainId * 2 + (35 + v - 27))%Z.

(** Convert an EIP-155 v into a normalized v. *)
Definition getNormalizedV (v : BigNumberish) : Z :=
  let bv := getBigInt v in
  if (bv =? 0)%Z then 27%Z
  else if (bv =? 1)%Z then 28%Z
  else if negb (Z.land bv 1 =? 0)%Z then 27%Z else 28%Z.

Arguments getChainId v%_Z.
Arguments getChainIdV chainId%_Z v%_Z.
Arguments getNormalizedV v%_Z.

(** ** The multi-format constructor [Signature.from] *)

(** Modelled from the spec: [ZeroHash] is imported from
    [constants/index.js], which is not among the sources.  Section 8:
    "[from(undefined)] yields [r = s = 0x00...00(32)]". *)
Definition ZeroHash : string :=
  "0x0000000000000000000000000000000000000000000000000000000000000000".

(** The local [assertError] of [from]: every failure names the argument
    ["signature"] and carries the whole input. *)
Definition assertError (sig : SignatureLike) (check : bool)
    (message : string) : Result unit :=
  assertArgument check message "signature" (SuppliedSignature sig).

(** [assertError(false, message)] where a value was expected. *)
Definition failError {A} (sig : SignatureLike) (message : string)
    : Result A :=
  Throw (mkError INVALID_ARGUMENT message "signature"
           (Some (SuppliedSignature sig))).

(** Get s; by any means necessary. *)
Definition from_s (sig : SignatureLike) (s yParityAndS : field string)
    : Result string :=
  match notNull s with
  | Some s =>
      assertError sig (isHexString s (Bytes 32)) "invalid s" ;;;
      Ok s
  | None =>
      match notNull yParityAndS with
      | Some yParityAndS =>
          assertError sig (isHexString yParityAndS (Bytes 32))
            "invalid yParityAndS" ;;;
          bytes <- getBytes (HexString yParityAndS) "value" ;;
          hexlify (Uint8Array (clearHighBit bytes))
      | None => failError sig "missing s"
      end
  end.

(** Get v; by any means necessary.  The result is the pair
    [{ networkV, v }]. *)
Definition from_v (sig : SignatureLike) (_v : field BigNumberish)
    (yParityAndS : field string) (yParity : field Z)
    : Result (option Z * Z) :=
  match notNull _v with
  | Some _v =>
      let v := getBigInt _v in
      Ok (if (35 <=? v)%Z then Some v else None, getNormalizedV v)
  | None =>
      match notNull yParityAndS with
      | Some yParityAndS =>
          assertError sig (isHexString yParityAndS (Bytes 32))
            "invalid yParityAndS" ;;;
          bytes <- getBytes (HexString yParityAndS) "value" ;;
          Ok (None, if highBit bytes then 28%Z else 27%Z)
      | None =>
          match notNull yParity with
          | Some yParity =>
              if (yParity =? 0)%Z then Ok (None, 27%Z)
              else if (yParity =? 1)%Z then Ok (None, 28%Z)
              else failError sig "invalid yParity"
          | None => failError sig "missing v"
          end
      end
  end.

(** [sig.yParity !== result.yParity]: [undefined] is no number. *)
Definition yParityDiffers (supplied : field Z) (derived : Z) : bool :=
  match supplied with
  | Value y => negb (y =? derived)%Z
  | _ => true
  end.

(** [sig.yParityAndS !== result.yParityAndS]: the strings are compared
    character by character. *)
Definition yParityAndSDiffers (supplied : field string) (derived : string)
    : bool :=
  match supplied with
  | Value y => negb (String.eqb y derived)
  | _ => true
  end.

Definition from_object (sig : SignatureLike) (o : SignatureObject)
    : Result Signature :=
  (* Get r *)
  match notNull (sig_r o) with
  | None => failError sig "missing r"
  | Some r =>
      assertError sig (isHexString r (Bytes 32)) "invalid r" ;;;
      s <- from_s sig (sig_s o) (sig_yParityAndS o) ;;
      bytes <- getBytes (HexString s) "value" ;;
      assertError sig (N.land (first bytes) 128 =? 0)%N
        "non-canonical s" ;;;
      nv <- from_v sig (sig_v o) (sig_yParityAndS o) (sig_yParity o) ;;
      let (networkV, v) := nv in
      result <- storeNetworkV networkV (new r s v) ;;
      (* If multiple of v, yParity, yParityAndS we given, check they match *)
      assertError sig
        (negb (hasKey (sig_yParity o) &&
               yParityDiffers (sig_yParity o) (get_yParity result)))
        "yParity mismatch" ;;;
      (if hasKey (sig_yParityAndS o) then
         derived <- get_yParityAndS result ;;
         assertError sig
           (negb (yParityAndSDiffers (sig_yParityAndS o) derived))
           "yParityAndS mismatch"
       else Ok tt) ;;;
      Ok result
  end.

Definition from (sig : SignatureLike) : Result Signature :=
  match sig with
  | SigNull => Ok (new ZeroHash ZeroHash 27)
  | SigString str =>
      bytes <- getBytes (HexString str) "signature" ;;
      if Nat.eqb (List.length bytes) 64 then
        r <- hexlify (Uint8Array (slice 0 32 bytes)) ;;
        let s := slice 32 64 bytes in
        let v := if highBit s then 28%Z else 27%Z in
        let s := clearHighBit s in
        s <- hexlify (Uint8Array s) ;;
        Ok (new r s v)
      else if Nat.eqb (List.length bytes) 65 then
        r <- hexlify (Uint8Array (slice 0 32 bytes)) ;;
        let s := slice 32 64 bytes in
        assertError sig (N.land (first s) 128 =? 0)%N "non-canonical s" ;;;
        let v := getNormalizedV (Z.of_N (Byte.to_N (nth 64 bytes x00))) in
        s <- hexlify (Uint8Array s) ;;
        Ok (new r s v)
      else failError sig "invlaid raw signature length"
  | SigInstance this => clone this
  | SigObject o => from_object sig o
  end.

(** ** Predicates and sample inputs of the properties *)

(** The blob of the concrete example of section 8: 32 bytes 0x11, then
    0x80 and 31 zero bytes. *)
Definition example_r : string :=
  "0x1111111111111111111111111111111111111111111111111111111111111111".

Definition example_blob64 : string :=
  example_r ++
  "8000000000000000000000000000000000000000000000000000000000000000".

(** A compact blob written with upper-case digits, and its bytes. *)
Definition upper_blob64 : string :=
  "0xAB000000000000000000000000000000000000000000000000000000000000CD" ++
  "7F00000000000000000000000000000000000000000000000000000000000001".

Definition upper_blob64_bytes : list byte :=
  Eval vm_compute in
    match getBytes (HexString upper_blob64) "signature" with
    | Ok bytes => bytes
    | Throw _ => []
    end.

(** The two errors of the cross-check. *)
Definition isMismatch (sig : SignatureLike) (e : Error) : Prop :=
  e = mkError INVALID_ARGUMENT "yParity mismatch" "signature"
        (Some (SuppliedSignature sig)) \/
  e = mkError INVALID_ARGUMENT "yParityAndS mismatch" "signature"
        (Some (SuppliedSignature sig)).

(** A redundant key agrees with the derived value when it is absent or
    holds that very value. *)
Definition agrees {A} (supplied : field A) (derived : A) : Prop :=
  supplied = Missing \/ supplied = Value derived.

(** The bytes of [ZeroHash]. *)
Definition zero_bytes : list byte := repeat x00 32.

(** [{ r, s, v: 27, yParity: 1 }]: [v] says parity 0. *)
Definition contradictory_record : SignatureObject :=
  mkObject (Value example_r) (Value ZeroHash) (Value 27%Z) (Value 1%Z)
    Missing.

(** [{ r, s, v: 28, yParity: 1, yParityAndS }], all in agreement. *)
Definition agreeing_record : SignatureObject :=
  mkObject (Value example_r) (Value ZeroHash) (Value 28%Z) (Value 1%Z)
    (Value
       "0x8000000000000000000000000000000000000000000000000000000000000000").

(** A blob of 65 bytes whose [s] part has its top bit set, and its
    bytes. *)
Definition high_s_blob65 : string :=
  example_blob64 ++ "1b".

Definition high_s_blob65_bytes : list byte :=
  Eval vm_compute in
    match getBytes (HexString high_s_blob65) "signature" with
    | Ok bytes => bytes
    | Throw _ => []
    end.

(** [{ r, s, v: 37 }]: chain id 1, parity 0; and [{ r, s, yParity: 2 }]. *)
Definition chain_bound_record : SignatureObject :=
  mkObject (Value example_r) (Value ZeroHash) (Value 37%Z) Missing Missing.

Definition bad_parity_record : SignatureObject :=
  mkObject (Value example_r) (Value ZeroHash) Missing (Value 2%Z) Missing.

(** [{ r, yParityAndS }] with the top bit of [yParityAndS] set, and
    [{ r, s, yParity: 1 }]. *)
Definition high_yParityAndS : string :=
  "0x8000000000000000000000000000000000000000000000000000000000000000".

Definition high_compact_record : SignatureObject :=
  mkObject (Value example_r) Missing Missing Missing
    (Value high_yParityAndS).

Definition odd_parity_record : SignatureObject :=
  mkObject (Value example_r) (Value ZeroHash) Missing (Value 1%Z) Missing.

(** Invariants 1 to 3 of the data model, and the range of [networkV]. *)
Definition valid (this : Signature) : Prop :=
  isHexString (get_r this) (Bytes 32) = true /\
  (exists sbytes : list byte,
     getBytes (HexString (get_s this)) "value" = Ok sbytes /\
     List.length sbytes = 32 /\
     highBit sbytes = false) /\
  (get_v this = 27%Z \/ get_v this = 28%Z) /\
  (get_networkV this = None \/
   exists n : Z, get_networkV this = Some n /\ (35 <= n)%Z).

(** The instances a program can hold: built by [from], copied by [clone],
    and changed by the setters and by [freeze]. *)
Inductive reachable : Signature -> Prop :=
| reach_from (sig : SignatureLike) (result : Signature) :
    (forall this, sig = SigInstance this -> reachable this) ->
    from sig = Ok result ->
    reachable result
| reach_clone (this result : Signature) :
    reachable this -> clone this = Ok result -> reachable result
| reach_set_r (this : Signature) (value : BytesLike) :
    reachable this -> reachable (snd (set_r value this))
| reach_set_s (this : Signature) (value : BytesLike) :
    reachable this -> reachable (snd (set_s value this))
| reach_set_v (this : Signature) (value : BigNumberish) :
    reachable this -> reachable (snd (set_v value this))
| reach_freeze (this : Signature) :
    reachable this -> reachable (snd (freeze this)).

(** [{ r, s, v: 37 }] with [r] in upper-case digits: [from] checks it with
    [isHexString] and stores the string it was given. *)
Definition upper_case_r : string :=
  "0xAAAAAAAAAAAAAAAAAAAAAAAAAAAAAAAAAAAAAAAAAAAAAAAAAAAAAAAAAAAAAAAA".

Definition upper_case_record : SignatureObject :=
  mkObject (Value upper_case_r) (Value ZeroHash) (Value 37%Z) Missing
    Missing.

Definition upper_case_instance : Signature :=
  mkSignature (mkProps upper_case_r ZeroHash 27 (Some 37%Z)) false.

Definition lower_case_r : string :=
  "0xaaaaaaaaaaaaaaaaaaaaaaaaaaaaaaaaaaaaaaaaaaaaaaaaaaaaaaaaaaaaaaaa".

(** The object of [toJSON()] handed to [from]: of the keys [from] reads it
    has [r], [s] and [v]; [yParity] and [yParityAndS] are not among its
    keys. *)
Definition ofJSON (json : SignatureJSON) : SignatureLike :=
  SigObject
    (mkObject (Value (json_r json)) (Value (json_s json))
       (Value (json_v json)) Missing Missing).

(** The object literal [{ r, s, v, yParity, yParityAndS }] filled from the
    getters of an instance. *)
Definition ofGetters (this : Signature) (yParityAndS : string)
    : SignatureObject :=
  mkObject (Value (get_r this)) (Value (get_s this)) (Value (get_v this))
    (Value (get_yParity this)) (Value yParityAndS).

(** The object literal [{ r, yParityAndS }], the EIP-2098 compact record. *)
Definition compactRecord (r yParityAndS : string) : SignatureObject :=
  mkObject (Value r) Missing Missing Missing (Value yParityAndS).

(** A call a holder of an instance can make on it, and the instance left
    by a sequence of calls, each one made whether or not the one before
    threw. *)
Inductive Call : Type :=
| CallSetR (value : BytesLike)
| CallSetS (value : BytesLike)
| CallSetV (value : BigNumberish)
| CallFreeze.

Definition call (c : Call) : Method unit :=
  match c with
  | CallSetR value => set_r value
  | CallSetS value => set_s value
  | CallSetV value => set_v value
  | CallFreeze => freeze
  end.

Fixpoint calls (cs : list Call) (this : Signature) : Signature :=
  match cs with
  | [] => this
  | c :: rest => calls rest (snd (call c this))
  end.

(** An error of [from] that names the argument [signature] and carries the
    whole input. *)
Definition reportsInput (sig : SignatureLike) (e : Error) : Prop :=
  code e = INVALID_ARGUMENT /\
  argument e = "signature" /\
  value e = Some (SuppliedSignature sig).

(** * Properties *)

(** ** The hex codec *)

Section Codec.

Lemma digits_of_byte (b : byte) :
  let n := Byte.to_N b in
  digitValue (hexCharacter (N.shiftr (N.land n 240) 4))
    = Some (N.shiftr (N.land n 240) 4)
  /\ digitValue (hexCharacter (N.land n 15)) = Some (N.land n 15)
  /\ toUint8 (16 * N.shiftr (N.land n 240) 4 + N.land n 15) = b.
Proof. destruct b; repeat split; reflexivity. Qed.

Lemma parsePairs_hexDigits (bytes : list byte) :
  parsePairs (hexDigits bytes) = Some bytes.
Proof.
  induction bytes as [|b rest IH]; [reflexivity|].
  cbn [hexDigits parsePairs].
  destruct (digits_of_byte b) as (Hh & Hl & Hb); cbv zeta in Hh, Hl, Hb.
  rewrite Hh, Hl, IH, Hb. reflexivity.
Qed.

Lemma allHexDigits_hexDigits (bytes : list byte) :
  allHexDigits (hexDigits bytes) = true.
Proof.
  induction bytes as [|b rest IH]; [reflexivity|].
  cbn [hexDigits allHexDigits].
  destruct (digits_of_byte b) as (Hh & Hl & _); cbv zeta in Hh, Hl.
  now rewrite Hh, Hl.
Qed.

Lemma length_hexDigits (bytes : list byte) :
  String.length (hexDigits bytes) = 2 * List.length bytes.
Proof.
  induction bytes as [|b rest IH]; cbn [hexDigits String.length List.length];
    lia.
Qed.

Lemma hexDigits_app (xs ys : list byte) :
  hexDigits (xs ++ ys) = hexDigits xs ++ hexDigits ys.
Proof.
  induction xs as [|b rest IH]; [reflexivity|].
  cbn [hexDigits app String.append]. now rewrite IH.
Qed.

Lemma getBytes_hexDigits (bytes : list byte) (name : string) :
  getBytes (HexString ("0x" ++ hexDigits bytes)) name = Ok bytes.
Proof.
  cbn [getBytes String.append stripPrefix].
  now rewrite parsePairs_hexDigits.
Qed.

Lemma hexlify_bytes (bytes : list byte) :
  hexlify (Uint8Array bytes) = Ok ("0x" ++ hexDigits bytes).
Proof. reflexivity. Qed.

Lemma isHexString_hexDigits (bytes : list byte) (n : nat) :
  List.length bytes = n ->
  isHexString ("0x" ++ hexDigits bytes) (Bytes n) = true.
Proof.
  intros <-. unfold isHexString.
  cbn [String.append stripPrefix String.length].
  rewrite allHexDigits_hexDigits, length_hexDigits.
  apply Nat.eqb_refl.
Qed.

(** A string of [2 * n] hexadecimal digits decodes, to [n] bytes. *)
Lemma parsePairs_total (n : nat) : forall digits,
  allHexDigits digits = true ->
  String.length digits = 2 * n ->
  exists bytes, parsePairs digits = Some bytes /\ List.length bytes = n.
Proof.
  induction n as [|n IH]; intros digits Hall Hlen.
  - destruct digits; [now exists []|discriminate].
  - destruct digits as [|hi [|lo rest]]; cbn in Hlen; try lia.
    cbn [allHexDigits] in Hall.
    destruct (digitValue hi) as [h|] eqn:Hh; [|discriminate].
    destruct (digitValue lo) as [l|] eqn:Hl; [|discriminate].
    destruct (IH rest Hall) as (bytes & Hp & Hn); [lia|].
    exists (toUint8 (16 * h + l) :: bytes).
    cbn [parsePairs]. rewrite Hh, Hl, Hp. cbn. now rewrite Hn.
Qed.

(** What decodes is a string of hexadecimal digits, two per byte. *)
Lemma parsePairs_sound : forall digits bytes,
  parsePairs digits = Some bytes ->
  allHexDigits digits = true /\
  String.length digits = 2 * List.length bytes.
Proof.
  fix IH 1. intros digits bytes.
  destruct digits as [|hi [|lo rest]]; cbn [parsePairs].
  - intros [= <-]. now split.
  - discriminate.
  - destruct (digitValue hi) as [h|] eqn:Hh; [|discriminate].
    destruct (digitValue lo) as [l|] eqn:Hl; [|discriminate].
    destruct (parsePairs rest) as [tl|] eqn:Hp; [|discriminate].
    intros [= <-]. destruct (IH rest tl Hp) as (Hall & Hlen).
    cbn [allHexDigits String.length List.length]. rewrite Hh, Hl.
    split; [assumption|lia].
Qed.

Lemma stripPrefix_inv (str digits : string) :
  stripPrefix str = Some digits -> str = "0x" ++ digits.
Proof.
  destruct str as [|a [|b rest]]; try discriminate;
    destruct a as [[] [] [] [] [] [] [] []]; try discriminate.
  destruct b as [[] [] [] [] [] [] [] []]; try discriminate.
  cbn. intros H. injection H as H. now rewrite H.
Qed.

Lemma isHexString_getBytes (str : string) (n : nat) (name : string) :
  isHexString str (Bytes n) = true ->
  exists bytes,
    getBytes (HexString str) name = Ok bytes /\ List.length bytes = n.
Proof.
  unfold isHexString, getBytes.
  destruct (stripPrefix str) as [digits|] eqn:Hs; [|discriminate].
  intros H. apply andb_true_iff in H as (Hall & Hlen).
  apply Nat.eqb_eq in Hlen.
  assert (String.length digits = 2 * n) as Hd.
  { apply stripPrefix_inv in Hs as ->. cbn in Hlen. lia. }
  destruct (parsePairs_total n digits Hall Hd) as (bytes & Hp & Hn).
  exists bytes. now rewrite Hp.
Qed.

Lemma getBytes_isHexString (str : string) (name : string) bytes :
  getBytes (HexString str) name = Ok bytes ->
  isHexString str (Bytes (List.length bytes)) = true.
Proof.
  unfold isHexString, getBytes.
  destruct (stripPrefix str) as [digits|] eqn:Hs; [|discriminate].
  destruct (parsePairs digits) as [l|] eqn:Hp; [|discriminate].
  intros [= <-]. destruct (parsePairs_sound _ _ Hp) as (Hall & Hlen).
  rewrite Hall. cbn [andb]. apply Nat.eqb_eq.
  apply stripPrefix_inv in Hs as ->. cbn. lia.
Qed.

(** The name handed to [getBytes] shows in its error only. *)
Lemma getBytes_name (data : BytesLike) (n1 n2 : string) bytes :
  getBytes data n1 = Ok bytes -> getBytes data n2 = Ok bytes.
Proof.
  destruct data as [str|l]; cbn [getBytes]; [|easy].
  destruct (stripPrefix str); [|discriminate].
  destruct (parsePairs _); [easy|discriminate].
Qed.

End Codec.

(** ** The high bit of the first byte *)

Section HighBit.

Lemma clear_byte_low (b : byte) :
  (N.land (Byte.to_N (toUint8 (N.land (Byte.to_N b) 127))) 128 =? 0)%N
    = true.
Proof. destruct b; reflexivity. Qed.

Lemma clear_byte_mod (b : byte) :
  Byte.to_N (toUint8 (N.land (Byte.to_N b) 127)) = (Byte.to_N b mod 128)%N.
Proof. destruct b; reflexivity. Qed.

Lemma set_byte_high (b : byte) :
  (N.land (Byte.to_N (toUint8 (N.lor (Byte.to_N b) 128))) 128 =? 0)%N
    = false.
Proof. destruct b; reflexivity. Qed.

Lemma clear_set_byte (b : byte) :
  (N.land (Byte.to_N b) 128 =? 0)%N = true ->
  toUint8 (N.land (Byte.to_N (toUint8 (N.lor (Byte.to_N b) 128))) 127) = b.
Proof. destruct b; (reflexivity || discriminate). Qed.

Lemma clear_low_byte (b : byte) :
  (N.land (Byte.to_N b) 128 =? 0)%N = true ->
  toUint8 (N.land (Byte.to_N b) 127) = b.
Proof. destruct b; (reflexivity || discriminate). Qed.

Lemma high_byte_testbit (b : byte) :
  negb (N.land (Byte.to_N b) 128 =? 0)%N = N.testbit (Byte.to_N b) 7.
Proof. destruct b; reflexivity. Qed.

Lemma first_clearHighBit (bytes : list byte) :
  (N.land (first (clearHighBit bytes)) 128 =? 0)%N = true.
Proof.
  destruct bytes as [|b rest]; [reflexivity|]. apply clear_byte_low.
Qed.

Lemma highBit_clearHighBit (bytes : list byte) :
  highBit (clearHighBit bytes) = false.
Proof. unfold highBit. now rewrite first_clearHighBit. Qed.

Lemma highBit_setHighBit (bytes : list byte) :
  bytes <> [] -> highBit (setHighBit bytes) = true.
Proof.
  destruct bytes as [|b rest]; [easy|]. intros _.
  unfold highBit, first. cbn [setHighBit hd]. now rewrite set_byte_high.
Qed.

Lemma clearHighBit_setHighBit (bytes : list byte) :
  highBit bytes = false -> clearHighBit (setHighBit bytes) = bytes.
Proof.
  destruct bytes as [|b rest]; [reflexivity|].
  unfold highBit, first. cbn [hd setHighBit clearHighBit].
  intros H. apply negb_false_iff in H. now rewrite clear_set_byte.
Qed.

Lemma clearHighBit_low (bytes : list byte) :
  highBit bytes = false -> clearHighBit bytes = bytes.
Proof.
  destruct bytes as [|b rest]; [reflexivity|].
  unfold highBit, first. cbn [hd clearHighBit].
  intros H. apply negb_false_iff in H. now rewrite clear_low_byte.
Qed.

Lemma highBit_testbit (bytes : list byte) :
  highBit bytes = N.testbit (Byte.to_N (nth 0 bytes x00)) 7.
Proof.
  unfold highBit, first. destruct bytes as [|b rest]; [reflexivity|].
  apply high_byte_testbit.
Qed.

Lemma length_clearHighBit (bytes : list byte) :
  List.length (clearHighBit bytes) = List.length bytes.
Proof. now destruct bytes. Qed.

Lemma length_setHighBit (bytes : list byte) :
  List.length (setHighBit bytes) = List.length bytes.
Proof. now destruct bytes. Qed.

Lemma length_slice (start finish : nat) (bytes : list byte) :
  finish <= List.length bytes ->
  List.length (slice start finish bytes) = finish - start.
Proof.
  intros H. unfold slice. rewrite length_firstn, length_skipn. lia.
Qed.

Lemma nth_slice (start finish i : nat) (bytes : list byte) :
  i < finish - start ->
  nth i (slice start finish bytes) x00 = nth (start + i) bytes x00.
Proof.
  intros H. unfold slice. rewrite nth_firstn.
  destruct (Nat.ltb_spec i (finish - start)); [|lia].
  apply nth_skipn.
Qed.

End HighBit.

(** ** The chain-id helpers *)

Section ChainId.

Lemma land_1_odd (z : Z) : negb (Z.land z 1 =? 0)%Z = Z.odd z.
Proof.
  change 1%Z with (Z.ones 1). rewrite Z.land_ones by lia.
  rewrite Zmod_odd. now destruct (Z.odd z).
Qed.

(** C7.  [getNormalizedV] sends 0 to 27 and 1 to 28, and every other
    integer to 27 when it is odd and to 28 when it is even, below 27 as
    well; so 27 and 28 are fixed and no other value is ever returned. *)
Theorem getNormalizedV_by_parity :
  getNormalizedV 0 = 27%Z /\
  getNormalizedV 1 = 28%Z /\
  (forall v : Z, v <> 0%Z -> v <> 1%Z ->
     getNormalizedV v = if Z.odd v then 27%Z else 28%Z) /\
  getNormalizedV 27 = 27%Z /\
  getNormalizedV 28 = 28%Z /\
  (forall v : Z, getNormalizedV v = 27%Z \/ getNormalizedV v = 28%Z).
Proof.
  assert (forall v : Z, v <> 0%Z -> v <> 1%Z ->
            getNormalizedV v = if Z.odd v then 27%Z else 28%Z) as Hpar.
  { intros v H0 H1. unfold getNormalizedV, getBigInt.
    destruct (Z.eqb_spec v 0); [contradiction|].
    destruct (Z.eqb_spec v 1); [contradiction|].
    now rewrite land_1_odd. }
  repeat split; try reflexivity; try exact Hpar.
  intros v. destruct (Z.eq_dec v 0) as [->|H0]; [now left|].
  destruct (Z.eq_dec v 1) as [->|H1]; [now right|].
  rewrite (Hpar v H0 H1). destruct (Z.odd v); auto.
Qed.

(** The rule of C7 at 5 and at 30, two values below 35 that are neither a
    parity nor 27 or 28. *)
Lemma getNormalizedV_by_parity_witness :
  getNormalizedV 5 = 27%Z /\ getNormalizedV 30 = 28%Z.
Proof.
  destruct getNormalizedV_by_parity as (_ & _ & Hpar & _).
  split; [apply (Hpar 5%Z); lia | apply (Hpar 30%Z); lia].
Defined.

(** C6.  For a chain id [c >= 0] and [v] in {27, 28}, [getChainIdV c v] is
    [c * 2 + 35 + (v - 27)] and [getChainId] takes it back to [c];
    [getChainId] is 0 at 27 and 28, an argument error at every other value
    below 35, and the floor of [(v - 35) / 2] from 35 on. *)
Theorem getChainId_getChainIdV (c v : Z) :
  (0 <= c)%Z -> v = 27%Z \/ v = 28%Z ->
  getChainIdV c v = (c * 2 + 35 + (v - 27))%Z /\
  getChainId (getChainIdV c v) = Ok c /\
  getChainId v = Ok 0%Z /\
  (forall w : Z, w <> 27%Z -> w <> 28%Z -> (w < 35)%Z ->
     getChainId w = Throw (mkError INVALID_ARGUMENT "invalid EIP-155 v" "v"
                             (Some (SuppliedNumber w)))) /\
  (forall w : Z, (35 <= w)%Z -> getChainId w = Ok ((w - 35) / 2)%Z).
Proof.
  intros Hc Hv.
  assert (forall w : Z, (35 <= w)%Z -> getChainId w = Ok ((w - 35) / 2)%Z)
    as Hfloor.
  { intros w Hw. unfold getChainId, getBigInt.
    destruct (Z.eqb_spec w 27); [lia|]. destruct (Z.eqb_spec w 28); [lia|].
    cbn [orb]. destruct (Z.leb_spec 35 w); [|lia].
    cbn [assertArgument bind]. now rewrite Z.quot_div_nonneg by lia. }
  split; [unfold getChainIdV, getBigInt; lia|].
  split.
  { rewrite Hfloor by (unfold getChainIdV, getBigInt; lia).
    f_equal. unfold getChainIdV, getBigInt.
    destruct Hv as [-> | ->].
    - replace (c * 2 + (35 + 27 - 27) - 35)%Z with (c * 2)%Z by lia.
      now rewrite Z.div_mul.
    - replace (c * 2 + (35 + 28 - 27) - 35)%Z with (1 + c * 2)%Z by lia.
      now rewrite Z.div_add. }
  split; [now destruct Hv as [-> | ->]|].
  split; [|exact Hfloor].
  intros w H27 H28 Hw. unfold getChainId, getBigInt.
  destruct (Z.eqb_spec w 27); [contradiction|].
  destruct (Z.eqb_spec w 28); [contradiction|].
  cbn [orb]. destruct (Z.leb_spec 35 w); [lia|]. reflexivity.
Qed.

(** C6 at chain id 1 and [v = 28]: the EIP-155 value is 38. *)
Lemma getChainId_getChainIdV_witness :
  getChainIdV 1 28 = 38%Z /\ getChainId (getChainIdV 1 28) = Ok 1%Z.
Proof.
  destruct (getChainId_getChainIdV 1 28) as (H1 & H2 & _);
    [lia | right; reflexivity |].
  split; [exact H1 | exact H2].
Defined.

End ChainId.

(** ** Raw blobs *)

Section Blob.

Variables (str : string) (bytes : list byte).
Hypothesis decoded : getBytes (HexString str) "signature" = Ok bytes.

Lemma from_blob64 :
  List.length bytes = 64 ->
  from (SigString str) =
    Ok (new ("0x" ++ hexDigits (slice 0 32 bytes))
            ("0x" ++ hexDigits (clearHighBit (slice 32 64 bytes)))
            (if highBit (slice 32 64 bytes) then 28%Z else 27%Z)).
Proof.
  intros Hlen. unfold from. rewrite decoded. cbn [bind]. now rewrite Hlen.
Qed.

Lemma from_blob65 :
  List.length bytes = 65 ->
  from (SigString str) =
    if highBit (slice 32 64 bytes)
    then Throw (mkError INVALID_ARGUMENT "non-canonical s" "signature"
                  (Some (SuppliedSignature (SigString str))))
    else Ok (new ("0x" ++ hexDigits (slice 0 32 bytes))
                 ("0x" ++ hexDigits (slice 32 64 bytes))
                 (getNormalizedV (Z.of_N (Byte.to_N (nth 64 bytes x00))))).
Proof.
  intros Hlen. unfold from. rewrite decoded. cbn [bind]. rewrite Hlen.
  cbn [Nat.eqb hexlify getBytes bind]. unfold highBit, assertError.
  now destruct (N.land (first (slice 32 64 bytes)) 128 =? 0)%N.
Qed.

Lemma from_blob_other :
  List.length bytes <> 64 -> List.length bytes <> 65 ->
  from (SigString str) =
    Throw (mkError INVALID_ARGUMENT "invlaid raw signature length"
             "signature" (Some (SuppliedSignature (SigString str)))).
Proof.
  intros H64 H65. unfold from. rewrite decoded. cbn [bind].
  apply Nat.eqb_neq in H64, H65. now rewrite H64, H65.
Qed.

Lemma highBit_slice32 :
  64 <= List.length bytes ->
  highBit (slice 32 64 bytes) = N.testbit (Byte.to_N (nth 32 bytes x00)) 7.
Proof.
  intros Hlen. rewrite highBit_testbit.
  now rewrite (nth_slice 32 64 0) by lia.
Qed.

End Blob.

(** C3.  On a blob of 64 bytes [from] returns an instance whose [r] is the
    hex string of the first 32 bytes, whose [v] is 28 when the top bit of
    byte 32 is set and 27 otherwise, and whose [s] is the hex string of
    bytes 32..63 with that bit cleared; the blob of 32 bytes 0x11, then
    0x80 and 31 zero bytes gives [r = 0x11...11], [s = 0x00...00],
    [v = 28]. *)
Theorem from_compact_blob :
  (forall (str : string) (bytes : list byte),
     getBytes (HexString str) "signature" = Ok bytes ->
     List.length bytes = 64 ->
     exists (result : Signature) (sbytes : list byte),
       from (SigString str) = Ok result /\
       get_r result = "0x" ++ hexDigits (firstn 32 bytes) /\
       get_v result =
         (if N.testbit (Byte.to_N (nth 32 bytes x00)) 7
          then 28%Z else 27%Z) /\
       get_s result = "0x" ++ hexDigits sbytes /\
       List.length sbytes = 32 /\
       Byte.to_N (nth 0 sbytes x00)
         = (Byte.to_N (nth 32 bytes x00) mod 128)%N /\
       (forall i : nat, 1 <= i < 32 ->
          nth i sbytes x00 = nth (32 + i) bytes x00) /\
       get_networkV result = None /\
       isFrozen result = false) /\
  from (SigString example_blob64) = Ok (new example_r ZeroHash 28).
Proof.
  split; [|reflexivity].
  intros str bytes Hdec Hlen.
  exists (new ("0x" ++ hexDigits (slice 0 32 bytes))
              ("0x" ++ hexDigits (clearHighBit (slice 32 64 bytes)))
              (if highBit (slice 32 64 bytes) then 28%Z else 27%Z)),
         (clearHighBit (slice 32 64 bytes)).
  split; [now apply from_blob64|].
  split; [reflexivity|].
  split; [now rewrite <- (highBit_slice32 bytes) by lia|].
  split; [reflexivity|].
  split; [rewrite length_clearHighBit, length_slice; lia|].
  assert (slice 32 64 bytes <> []) as Hne.
  { intros E. apply (f_equal (@List.length byte)) in E.
    rewrite length_slice in E by lia. discriminate. }
  split.
  - destruct (slice 32 64 bytes) as [|b rest] eqn:E; [contradiction|].
    cbn [clearHighBit nth]. rewrite clear_byte_mod. f_equal. f_equal.
    change b with (nth 0 (b :: rest) x00). rewrite <- E.
    now rewrite (nth_slice 32 64 0) by lia.
  - split; [|now split].
    intros i Hi. rewrite <- (nth_slice 32 64 i) by lia.
    destruct (slice 32 64 bytes) as [|b rest]; [contradiction|].
    destruct i as [|i]; [lia|]. reflexivity.
Qed.

(** C3 at a blob in upper-case digits: [r] comes back in lower case. *)
Lemma from_compact_blob_witness :
  exists (result : Signature),
    from (SigString upper_blob64) = Ok result /\
    get_r result =
      "0xab000000000000000000000000000000000000000000000000000000000000cd" /\
    get_v result = 27%Z.
Proof.
  destruct (proj1 from_compact_blob upper_blob64 upper_blob64_bytes
              eq_refl eq_refl)
    as (result & sbytes & Hfrom & Hr & Hv & _).
  exists result. split; [exact Hfrom|]. split; [exact Hr | exact Hv].
Defined.

(** ** Structured records *)

Section Object.

Lemma storeNetworkV_new (r s : string) (v : Z) (networkV : option Z) :
  networkV <> Some 0%Z ->
  storeNetworkV networkV (new r s v)
    = Ok (mkSignature (mkProps r s v networkV) false).
Proof.
  destruct networkV as [n|]; [|reflexivity]. intros Hn.
  unfold storeNetworkV. destruct (Z.eqb_spec n 0); [now subst|reflexivity].
Qed.

Lemma getNormalizedV_range (v : Z) :
  getNormalizedV v = 27%Z \/ getNormalizedV v = 28%Z.
Proof.
  unfold getNormalizedV. destruct (_ =? 0)%Z; [now left|].
  destruct (_ =? 1)%Z; [now right|]. destruct (negb _); auto.
Qed.

(** What [from_v] returns: a [v] of 27 or 28, and a [networkV] that is
    absent or at least 35. *)
Lemma from_v_range sig (raw_v : field BigNumberish)
    (yParityAndS : field string) (yParity : field Z)
    (networkV : option Z) (v : Z) :
  from_v sig raw_v yParityAndS yParity = Ok (networkV, v) ->
  (networkV = None \/ exists n, networkV = Some n /\ (35 <= n)%Z) /\
  (v = 27%Z \/ v = 28%Z).
Proof.
  unfold from_v.
  destruct (notNull raw_v) as [raw|].
  { intros H. inversion H. subst. clear H.
    split; [|apply getNormalizedV_range].
    unfold getBigInt. destruct (Z.leb_spec 35 raw); [right|left]; eauto. }
  destruct (notNull yParityAndS) as [y|].
  { destruct (isHexString y (Bytes 32)); [|discriminate].
    cbn [assertError assertArgument bind].
    destruct (getBytes _ _) as [yb|]; [|discriminate]. cbn [bind].
    intros H. inversion H. subst. clear H.
    split; [now left|]. destruct (highBit yb); auto. }
  destruct (notNull yParity) as [p|]; [|discriminate].
  destruct (p =? 0)%Z; [intros H; inversion H; auto|].
  destruct (p =? 1)%Z; [intros H; inversion H; auto|discriminate].
Qed.

(** What [from_s] returns is a hex string of 32 bytes; when it was derived
    from [yParityAndS], its high bit is clear. *)
Lemma from_s_hex sig (s yParityAndS : field string) (resolved : string) :
  from_s sig s yParityAndS = Ok resolved ->
  isHexString resolved (Bytes 32) = true /\
  (notNull s = None ->
   exists y ybytes,
     notNull yParityAndS = Some y /\
     getBytes (HexString y) "value" = Ok ybytes /\
     List.length ybytes = 32 /\
     resolved = "0x" ++ hexDigits (clearHighBit ybytes)).
Proof.
  unfold from_s. destruct (notNull s) as [explicit|].
  { destruct (isHexString explicit (Bytes 32)) eqn:Hs; [|discriminate].
    intros [= <-]. now split. }
  destruct (notNull yParityAndS) as [y|]; [|discriminate].
  destruct (isHexString y (Bytes 32)) eqn:Hy; [|discriminate].
  cbn [assertError assertArgument bind].
  destruct (isHexString_getBytes y 32 "value" Hy) as (yb & Hyb & Hlen).
  rewrite Hyb. cbn [bind]. rewrite hexlify_bytes. intros [= <-]. split.
  - apply isHexString_hexDigits. now rewrite length_clearHighBit.
  - intros _. exists y, yb. auto.
Qed.

Lemma get_yParityAndS_decoded (this : Signature) (sbytes : list byte) :
  getBytes (HexString (get_s this)) "value" = Ok sbytes ->
  get_yParityAndS this
    = Ok ("0x" ++ hexDigits
            (if (get_v this =? 27)%Z then sbytes else setHighBit sbytes)).
Proof.
  intros Hs. unfold get_yParityAndS, get_yParity. rewrite Hs. cbn [bind].
  rewrite hexlify_bytes. now destruct (get_v this =? 27)%Z.
Qed.

Variables (sig : SignatureLike) (o : SignatureObject).
Variables (r s : string) (sbytes : list byte) (networkV : option Z) (v : Z).

Hypothesis r_present : notNull (sig_r o) = Some r.
Hypothesis r_hex : isHexString r (Bytes 32) = true.
Hypothesis s_resolved : from_s sig (sig_s o) (sig_yParityAndS o) = Ok s.
Hypothesis s_decoded : getBytes (HexString s) "value" = Ok sbytes.

(** A resolved [s] with its high bit set stops [from] there. *)
Lemma from_object_high_s :
  highBit sbytes = true ->
  from_object sig o =
    Throw (mkError INVALID_ARGUMENT "non-canonical s" "signature"
             (Some (SuppliedSignature sig))).
Proof.
  intros Hhigh. unfold from_object.
  rewrite r_present, r_hex. cbn [assertError assertArgument bind].
  rewrite s_resolved. cbn [bind]. rewrite s_decoded. cbn [bind].
  unfold highBit in Hhigh. apply negb_true_iff in Hhigh. now rewrite Hhigh.
Qed.

Hypothesis s_canonical : highBit sbytes = false.

(** An error of [from_v] is the error of [from]. *)
Lemma from_object_v_error (e : Error) :
  from_v sig (sig_v o) (sig_yParityAndS o) (sig_yParity o) = Throw e ->
  from_object sig o = Throw e.
Proof.
  intros Hv. unfold from_object.
  rewrite r_present, r_hex. cbn [assertError assertArgument bind].
  rewrite s_resolved. cbn [bind]. rewrite s_decoded. cbn [bind].
  unfold highBit in s_canonical. apply negb_false_iff in s_canonical.
  rewrite s_canonical. cbn [bind]. now rewrite Hv.
Qed.

Hypothesis v_resolved :
  from_v sig (sig_v o) (sig_yParityAndS o) (sig_yParity o)
    = Ok (networkV, v).

(** Once [r], [s] and [v] are resolved, what is left of [from] is the
    cross-check of the redundant keys against the assembled instance. *)
Lemma from_object_resolved :
  let result := mkSignature (mkProps r s v networkV) false in
  let derived :=
    "0x" ++ hexDigits (if (v =? 27)%Z then sbytes else setHighBit sbytes) in
  from_object sig o =
    (assertError sig
       (negb (hasKey (sig_yParity o) &&
              yParityDiffers (sig_yParity o) (if (v =? 27)%Z then 0 else 1)))
       "yParity mismatch" ;;;
     (if hasKey (sig_yParityAndS o)
      then assertError sig
             (negb (yParityAndSDiffers (sig_yParityAndS o) derived))
             "yParityAndS mismatch"
      else Ok tt) ;;;
     Ok result).
Proof.
  intros result derived. unfold from_object.
  rewrite r_present, r_hex. cbn [assertError assertArgument bind].
  rewrite s_resolved. cbn [bind]. rewrite s_decoded. cbn [bind].
  pose proof s_canonical as Hc. unfold highBit in Hc.
  apply negb_false_iff in Hc. rewrite Hc. cbn [bind].
  rewrite v_resolved. cbn [bind].
  destruct (from_v_range _ _ _ _ _ _ v_resolved) as (Hn & _).
  rewrite storeNetworkV_new
    by (destruct Hn as [-> | (n & -> & Hn)]; [easy | intros [= ->]; lia]).
  cbn [bind]. fold result.
  rewrite (get_yParityAndS_decoded result sbytes s_decoded).
  reflexivity.
Qed.

End Object.

Section Outcome.

Variables (sig : SignatureLike) (o : SignatureObject).
Variables (r s : string) (sbytes : list byte).

Hypothesis r_present : notNull (sig_r o) = Some r.
Hypothesis r_hex : isHexString r (Bytes 32) = true.
Hypothesis s_resolved : from_s sig (sig_s o) (sig_yParityAndS o) = Ok s.
Hypothesis s_decoded : getBytes (HexString s) "value" = Ok sbytes.
Hypothesis s_canonical : highBit sbytes = false.

(** With [r], [s] and [v] resolved, [from] either reports a mismatch or
    returns the instance assembled from them. *)
Lemma from_object_outcome (networkV : option Z) (v : Z) :
  from_v sig (sig_v o) (sig_yParityAndS o) (sig_yParity o)
    = Ok (networkV, v) ->
  (exists e, from_object sig o = Throw e /\ isMismatch sig e) \/
  from_object sig o = Ok (mkSignature (mkProps r s v networkV) false).
Proof.
  intros Hv.
  rewrite (from_object_resolved sig o r s sbytes networkV v) by assumption.
  cbv zeta. unfold assertError, assertArgument.
  destruct (negb (hasKey (sig_yParity o) && _)).
  - cbn [bind]. destruct (hasKey (sig_yParityAndS o)); [|now right].
    destruct (negb (yParityAndSDiffers _ _)); [now right|].
    left. eexists. split; [reflexivity|]. now right.
  - left. eexists. split; [reflexivity|]. now left.
Qed.

End Outcome.

Lemma yParityDiffers_agree (supplied : field Z) (derived : Z) :
  hasKey supplied && yParityDiffers supplied derived = false <->
  supplied = Missing \/ supplied = Value derived.
Proof.
  destruct supplied as [| |y]; cbn.
  - intuition.
  - split; [discriminate|]. intros [H|H]; discriminate.
  - rewrite negb_false_iff, Z.eqb_eq. split.
    + intros ->. now right.
    + intros [H|H]; [discriminate|]. now injection H.
Qed.

Lemma yParityAndSDiffers_agree (supplied : field string) (derived : string) :
  hasKey supplied && yParityAndSDiffers supplied derived = false <->
  supplied = Missing \/ supplied = Value derived.
Proof.
  destruct supplied as [| |y]; cbn.
  - intuition.
  - split; [discriminate|]. intros [H|H]; discriminate.
  - rewrite negb_false_iff, String.eqb_eq. split.
    + intros ->. now right.
    + intros [H|H]; [discriminate|]. now injection H.
Qed.



(** The comparison of [yParityAndS] is one of strings: a record whose only
    source of [s] and [v] is a [yParityAndS] written with an upper-case
    digit is reported as a mismatch with the lower-case string derived
    from it. *)
Example from_upper_case_yParityAndS :
  let o := mkObject (Value example_r) Missing Missing Missing
    (Value
       "0x000000000000000000000000000000000000000000000000000000000000000A")
  in
  from (SigObject o) =
    Throw (mkError INVALID_ARGUMENT "yParityAndS mismatch" "signature"
             (Some (SuppliedSignature (SigObject o)))).
Proof. reflexivity. Qed.

(** ** Canonical [s] *)

Lemma from_v_error_message sig (raw_v : field BigNumberish)
    (yParityAndS : field string) (yParity : field Z) (e : Error) :
  from_v sig raw_v yParityAndS yParity = Throw e ->
  message e <> "non-canonical s".
Proof.
  unfold from_v.
  destruct (notNull raw_v); [discriminate|].
  destruct (notNull yParityAndS) as [y|].
  { destruct (isHexString y (Bytes 32)) eqn:Hy;
      [|intros [= <-]; discriminate].
    destruct (isHexString_getBytes y 32 "value" Hy) as (yb & Hyb & _).
    cbn [assertError assertArgument bind]. rewrite Hyb. discriminate. }
  destruct (notNull yParity) as [p|]; [|intros [= <-]; discriminate].
  destruct (p =? 0)%Z; [discriminate|].
  destruct (p =? 1)%Z; [discriminate|intros [= <-]; discriminate].
Qed.

(** C2.  [from] rejects an [s] whose top bit is set: a blob of 65 bytes
    with that bit set in byte 32, and a record whose explicit [s] has it
    set, fail with the non-canonical-s error; a blob of 64 bytes always
    constructs, and a record whose [s] is derived from [yParityAndS]
    never fails with that error, the derived [s] having the bit
    cleared. *)
Theorem from_non_canonical_s :
  (forall (str : string) (bytes : list byte),
     getBytes (HexString str) "signature" = Ok bytes ->
     List.length bytes = 65 ->
     N.testbit (Byte.to_N (nth 32 bytes x00)) 7 = true ->
     from (SigString str) =
       Throw (mkError INVALID_ARGUMENT "non-canonical s" "signature"
                (Some (SuppliedSignature (SigString str))))) /\
  (forall (o : SignatureObject) (r s : string) (sbytes : list byte),
     notNull (sig_r o) = Some r ->
     isHexString r (Bytes 32) = true ->
     notNull (sig_s o) = Some s ->
     getBytes (HexString s) "value" = Ok sbytes ->
     List.length sbytes = 32 ->
     N.testbit (Byte.to_N (nth 0 sbytes x00)) 7 = true ->
     from (SigObject o) =
       Throw (mkError INVALID_ARGUMENT "non-canonical s" "signature"
                (Some (SuppliedSignature (SigObject o))))) /\
  (forall (str : string) (bytes : list byte),
     getBytes (HexString str) "signature" = Ok bytes ->
     List.length bytes = 64 ->
     exists (result : Signature) (sbytes : list byte),
       from (SigString str) = Ok result /\
       getBytes (HexString (get_s result)) "value" = Ok sbytes /\
       N.testbit (Byte.to_N (nth 0 sbytes x00)) 7 = false) /\
  (forall (o : SignatureObject) (y : string),
     notNull (sig_s o) = None ->
     notNull (sig_yParityAndS o) = Some y ->
     (forall e : Error,
        from (SigObject o) = Throw e -> message e <> "non-canonical s") /\
     (forall result : Signature,
        from (SigObject o) = Ok result ->
        exists sbytes : list byte,
          getBytes (HexString (get_s result)) "value" = Ok sbytes /\
          N.testbit (Byte.to_N (nth 0 sbytes x00)) 7 = false)).
Proof.
  split; [|split; [|split]].
  - intros str bytes Hdec Hlen Hbit.
    rewrite (from_blob65 str bytes Hdec Hlen).
    now rewrite (highBit_slice32 bytes), Hbit by lia.
  - intros o r s sbytes Hr Hrh Hs Hsb Hlen Hbit. unfold from.
    apply (from_object_high_s _ o r s sbytes); try assumption.
    + unfold from_s. rewrite Hs.
      pose proof (getBytes_isHexString s "value" sbytes Hsb) as Hsh.
      rewrite Hlen in Hsh. now rewrite Hsh.
    + now rewrite highBit_testbit.
  - intros str bytes Hdec Hlen.
    exists (new ("0x" ++ hexDigits (slice 0 32 bytes))
                ("0x" ++ hexDigits (clearHighBit (slice 32 64 bytes)))
                (if highBit (slice 32 64 bytes) then 28%Z else 27%Z)),
           (clearHighBit (slice 32 64 bytes)).
    split; [now apply from_blob64|].
    split; [apply getBytes_hexDigits|].
    rewrite <- highBit_testbit. apply highBit_clearHighBit.
  - intros o y Hs Hy.
    assert (forall s, from_s (SigObject o) (sig_s o) (sig_yParityAndS o)
                        = Ok s ->
              exists sbytes,
                getBytes (HexString s) "value" = Ok sbytes /\
                highBit sbytes = false) as Hclean.
    { intros s Hfs. apply from_s_hex in Hfs as (_ & Hder).
      destruct (Hder Hs) as (y' & yb & _ & _ & _ & ->).
      exists (clearHighBit yb).
      split; [apply getBytes_hexDigits | apply highBit_clearHighBit]. }
    unfold from, from_object.
    destruct (notNull (sig_r o)) as [r|];
      [|split; [intros e [= <-]; discriminate | discriminate]].
    destruct (isHexString r (Bytes 32)) eqn:Hrh;
      [|split; [intros e [= <-]; discriminate | discriminate]].
    cbn [assertError assertArgument bind].
    destruct (from_s _ _ _) as [s|es] eqn:Hfs.
    2:{ split; [|discriminate]. intros e [= <-]. revert Hfs.
        unfold from_s. rewrite Hs, Hy.
        destruct (isHexString y (Bytes 32)) eqn:Hyh;
          [|intros [= <-]; discriminate].
        destruct (isHexString_getBytes y 32 "value" Hyh) as (yb & Hyb & _).
        cbn [assertError assertArgument bind]. rewrite Hyb. discriminate. }
    destruct (Hclean s eq_refl) as (sbytes & Hsb & Hlow).
    cbn [bind]. rewrite Hsb. cbn [bind].
    pose proof Hlow as Hlow'. unfold highBit in Hlow'.
    apply negb_false_iff in Hlow'. rewrite Hlow'. cbn [bind].
    destruct (from_v _ _ _ _) as [[networkV v]|ev] eqn:Hfv.
    2:{ split; [|discriminate]. intros e [= <-].
        now apply from_v_error_message in Hfv. }
    cbn [bind].
    destruct (from_v_range _ _ _ _ _ _ Hfv) as (Hn & _).
    rewrite storeNetworkV_new
      by (destruct Hn as [-> | (n & -> & Hn)]; [easy | intros [= ->]; lia]).
    cbn [bind]. unfold assertError, assertArgument.
    destruct (negb (hasKey (sig_yParity o) && _));
      [|split; [intros e [= <-]; discriminate | discriminate]].
    cbn [bind]. destruct (hasKey (sig_yParityAndS o)).
    + rewrite (get_yParityAndS_decoded
                 (mkSignature (mkProps r s v networkV) false) sbytes Hsb).
      cbn [bind].
      destruct (negb (yParityAndSDiffers _ _));
        [|split; [intros e [= <-]; discriminate | discriminate]].
      cbn [bind]. split; [discriminate|]. intros result [= <-].
      exists sbytes. split; [exact Hsb | now rewrite <- highBit_testbit].
    + cbn [bind]. split; [discriminate|]. intros result [= <-].
      exists sbytes. split; [exact Hsb | now rewrite <- highBit_testbit].
Qed.

(** C2 at the blob of 65 bytes whose [s] part starts with 0x80. *)
Lemma from_non_canonical_s_witness :
  from (SigString high_s_blob65) =
    Throw (mkError INVALID_ARGUMENT "non-canonical s" "signature"
             (Some (SuppliedSignature (SigString high_s_blob65)))).
Proof.
  apply (proj1 from_non_canonical_s high_s_blob65 high_s_blob65_bytes);
    reflexivity.
Defined.

(** ** The resolution of [v] *)

Section Checked.

Variables (sig : SignatureLike) (o : SignatureObject).
Variables (r s : string) (sbytes : list byte) (networkV : option Z) (v : Z).

Hypothesis r_present : notNull (sig_r o) = Some r.
Hypothesis r_hex : isHexString r (Bytes 32) = true.
Hypothesis s_resolved : from_s sig (sig_s o) (sig_yParityAndS o) = Ok s.
Hypothesis s_decoded : getBytes (HexString s) "value" = Ok sbytes.
Hypothesis s_canonical : highBit sbytes = false.
Hypothesis v_resolved :
  from_v sig (sig_v o) (sig_yParityAndS o) (sig_yParity o)
    = Ok (networkV, v).

(** With [r], [s] and [v] resolved, [from] returns the instance assembled
    from them exactly when both redundant keys agree with its getters,
    and reports a mismatch otherwise. *)
Lemma from_object_checked :
  let built := mkSignature (mkProps r s v networkV) false in
  let derived :=
    "0x" ++ hexDigits (if (v =? 27)%Z then sbytes else setHighBit sbytes) in
  get_yParityAndS built = Ok derived /\
  (agrees (sig_yParity o) (get_yParity built) ->
   agrees (sig_yParityAndS o) derived ->
   from_object sig o = Ok built) /\
  (~ (agrees (sig_yParity o) (get_yParity built) /\
      agrees (sig_yParityAndS o) derived) ->
   exists e, from_object sig o = Throw e /\ isMismatch sig e).
Proof.
  intros built derived0.
  split; [now apply (get_yParityAndS_decoded built)|].
  unfold derived0. clear derived0.
  rewrite (from_object_resolved sig o r s sbytes networkV v)
    by assumption.
  cbv zeta. fold built.
  change (get_yParity built) with (if (v =? 27)%Z then 0%Z else 1%Z).
  set (derivedY := if (v =? 27)%Z then 0%Z else 1%Z).
  set (derived := "0x" ++ hexDigits _).
  pose proof (yParityDiffers_agree (sig_yParity o) derivedY) as HY.
  pose proof (yParityAndSDiffers_agree (sig_yParityAndS o) derived) as HYS.
  fold (agrees (sig_yParity o) derivedY) in HY.
  fold (agrees (sig_yParityAndS o) derived) in HYS.
  unfold assertError, assertArgument.
  destruct (hasKey (sig_yParity o) && yParityDiffers _ _).
  { split.
    - intros H. apply HY in H. discriminate.
    - intros _. eexists. split; [reflexivity | now left]. }
  cbn [negb bind].
  destruct (hasKey (sig_yParityAndS o) &&
            yParityAndSDiffers (sig_yParityAndS o) derived) eqn:EYS.
  - apply andb_true_iff in EYS as (EK & ED). rewrite EK, ED. split.
    + intros _ H. apply HYS in H. discriminate.
    + intros _. eexists. split; [reflexivity | now right].
  - assert (from_ok :
      (if hasKey (sig_yParityAndS o)
       then (if negb (yParityAndSDiffers (sig_yParityAndS o) derived)
             then Ok tt
             else Throw (mkError INVALID_ARGUMENT "yParityAndS mismatch"
                           "signature" (Some (SuppliedSignature sig))))
       else Ok tt) = Ok tt).
    { destruct (hasKey (sig_yParityAndS o)); [|reflexivity].
      cbn [andb] in EYS. now rewrite EYS. }
    rewrite from_ok. cbn [bind]. split; [reflexivity|].
    intros H. exfalso. apply H. split; [now apply HY | now apply HYS].
Qed.

End Checked.

(** C4.  In a record whose [r] and [s] resolve, [v] is taken from the
    first of three sources: an explicit [v], normalized by
    [getNormalizedV] and kept as [networkV] exactly when it is at least
    35; else [yParityAndS], 28 when its top bit is set and 27 otherwise,
    with no [networkV]; else [yParity], 0 giving 27 and 1 giving 28 and
    any other value an invalid-yParity error; with none of them [from]
    fails with the missing-v error.  A [v] that resolves is the [v] that
    [from_v] returns, and [from] returns the instance holding it, with
    that [networkV], exactly when a [yParity] key is absent or the parity
    of that [v] and a [yParityAndS] key is absent or the hex string of
    [s] with the parity in its top bit; otherwise it reports a
    mismatch. *)
Theorem from_v_priority (o : SignatureObject) (r s : string)
    (sbytes : list byte) :
  let sig := SigObject o in
  notNull (sig_r o) = Some r ->
  isHexString r (Bytes 32) = true ->
  from_s sig (sig_s o) (sig_yParityAndS o) = Ok s ->
  getBytes (HexString s) "value" = Ok sbytes ->
  highBit sbytes = false ->
  let resolves (v : Z) (networkV : option Z) :=
    let built := mkSignature (mkProps r s v networkV) false in
    let derived :=
      "0x" ++ hexDigits (if (v =? 27)%Z then sbytes else setHighBit sbytes)
    in
    from_v sig (sig_v o) (sig_yParityAndS o) (sig_yParity o)
      = Ok (networkV, v) /\
    get_yParityAndS built = Ok derived /\
    (agrees (sig_yParity o) (if (v =? 27)%Z then 0%Z else 1%Z) ->
     agrees (sig_yParityAndS o) derived ->
     from sig = Ok built) /\
    (~ (agrees (sig_yParity o) (if (v =? 27)%Z then 0%Z else 1%Z) /\
        agrees (sig_yParityAndS o) derived) ->
     exists e, from sig = Throw e /\ isMismatch sig e) in
  let fails (message : string) :=
    from sig = Throw (mkError INVALID_ARGUMENT message "signature"
                        (Some (SuppliedSignature sig))) in
  (forall raw : Z,
     notNull (sig_v o) = Some raw ->
     resolves (getNormalizedV raw)
       (if (35 <=? raw)%Z then Some raw else None)) /\
  (forall (y : string) (ybytes : list byte),
     notNull (sig_v o) = None ->
     notNull (sig_yParityAndS o) = Some y ->
     getBytes (HexString y) "value" = Ok ybytes ->
     List.length ybytes = 32 ->
     resolves
       (if N.testbit (Byte.to_N (nth 0 ybytes x00)) 7 then 28%Z else 27%Z)
       None) /\
  (forall p : Z,
     notNull (sig_v o) = None ->
     notNull (sig_yParityAndS o) = None ->
     notNull (sig_yParity o) = Some p ->
     (p = 0%Z -> resolves 27%Z None) /\
     (p = 1%Z -> resolves 28%Z None) /\
     (p <> 0%Z -> p <> 1%Z -> fails "invalid yParity")) /\
  (notNull (sig_v o) = None ->
   notNull (sig_yParityAndS o) = None ->
   notNull (sig_yParity o) = None ->
   fails "missing v").
Proof.
  intros sig Hr Hrh Hs Hsb Hc resolves fails.
  assert (forall v networkV,
            from_v sig (sig_v o) (sig_yParityAndS o) (sig_yParity o)
              = Ok (networkV, v) ->
            resolves v networkV) as Hresolves.
  { intros v networkV Hfv. split; [exact Hfv|].
    exact (from_object_checked sig o r s sbytes networkV v
             Hr Hrh Hs Hsb Hc Hfv). }
  unfold fails, from, sig.
  split; [|split; [|split]].
  - intros raw Hv. apply Hresolves.
    unfold from_v. now rewrite Hv.
  - intros y ybytes Hv Hy Hyb Hlen. apply Hresolves.
    unfold from_v. rewrite Hv, Hy.
    pose proof (getBytes_isHexString y "value" ybytes Hyb) as Hyh.
    rewrite Hlen in Hyh. rewrite Hyh.
    cbn [assertError assertArgument bind]. rewrite Hyb. cbn [bind].
    now rewrite highBit_testbit.
  - intros p Hv Hy Hp. split; [|split].
    + intros ->. apply Hresolves.
      unfold from_v. now rewrite Hv, Hy, Hp.
    + intros ->. apply Hresolves.
      unfold from_v. now rewrite Hv, Hy, Hp.
    + intros H0 H1.
      apply (from_object_v_error _ o r s sbytes); try assumption.
      unfold from_v. rewrite Hv, Hy, Hp.
      destruct (Z.eqb_spec p 0); [contradiction|].
      destruct (Z.eqb_spec p 1); [contradiction|]. reflexivity.
  - intros Hv Hy Hp.
    apply (from_object_v_error _ o r s sbytes); try assumption.
    unfold from_v. now rewrite Hv, Hy, Hp.
Qed.

(** C4 at each source of [v]: an explicit [v] of 37, which normalizes to
    27 and is kept as [networkV]; a [yParityAndS] whose top bit is set,
    which gives 28; a [yParity] of 1, which gives 28; and a [yParity] of
    2, which is refused. *)
Lemma from_v_priority_witness :
  from (SigObject chain_bound_record) =
    Ok (mkSignature (mkProps example_r ZeroHash 27 (Some 37%Z)) false) /\
  from (SigObject high_compact_record) =
    Ok (mkSignature (mkProps example_r ZeroHash 28 None) false) /\
  from (SigObject odd_parity_record) =
    Ok (mkSignature (mkProps example_r ZeroHash 28 None) false) /\
  from (SigObject bad_parity_record) =
    Throw (mkError INVALID_ARGUMENT "invalid yParity" "signature"
             (Some (SuppliedSignature (SigObject bad_parity_record)))).
Proof.
  split; [|split; [|split]].
  - destruct (from_v_priority chain_bound_record example_r ZeroHash
                zero_bytes eq_refl eq_refl eq_refl eq_refl eq_refl)
      as (Hv & _).
    destruct (Hv 37%Z eq_refl) as (_ & _ & Hok & _).
    apply Hok; left; reflexivity.
  - destruct (from_v_priority high_compact_record example_r ZeroHash
                zero_bytes eq_refl eq_refl eq_refl eq_refl eq_refl)
      as (_ & Hy & _).
    destruct (Hy high_yParityAndS (x80 :: repeat x00 31)
                eq_refl eq_refl eq_refl eq_refl)
      as (_ & _ & Hok & _).
    apply Hok; [left | right]; reflexivity.
  - destruct (from_v_priority odd_parity_record example_r ZeroHash
                zero_bytes eq_refl eq_refl eq_refl eq_refl eq_refl)
      as (_ & _ & Hp & _).
    destruct (Hp 1%Z eq_refl eq_refl eq_refl) as (_ & H1 & _).
    destruct (H1 eq_refl) as (_ & _ & Hok & _).
    apply Hok; [right | left]; reflexivity.
  - destruct (from_v_priority bad_parity_record example_r ZeroHash
                zero_bytes eq_refl eq_refl eq_refl eq_refl eq_refl)
      as (_ & _ & Hp & _).
    destruct (Hp 2%Z eq_refl eq_refl eq_refl) as (_ & _ & Hbad).
    apply Hbad; discriminate.
Defined.

(** ** The invariants of an instance *)

Section Invariant.

Lemma dataLength_getBytes (data : BytesLike) (n : nat) (bytes : list byte) :
  dataLength data = Ok n ->
  getBytes data "value" = Ok bytes ->
  List.length bytes = n.
Proof.
  destruct data as [str|l]; unfold dataLength.
  - destruct (isHexString str WholeBytes).
    + intros [= <-]. cbn [getBytes].
      destruct (stripPrefix str) as [digits|] eqn:Hs; [|discriminate].
      destruct (parsePairs digits) as [l|] eqn:Hp; [|discriminate].
      intros [= <-]. apply stripPrefix_inv in Hs as ->.
      apply parsePairs_sound in Hp as (_ & Hlen).
      assert (String.length ("0x" ++ digits) - 2 = List.length l * 2) as E
        by (cbn [String.append String.length]; lia).
      rewrite E.
      change (List.length l = List.length l * 2 / 2).
      now rewrite Nat.div_mul.
    + intros H1 H2. rewrite H2 in H1. now injection H1.
  - intros H1 H2. rewrite H2 in H1. now injection H1.
Qed.

(** A setter that throws leaves the instance as it was. *)
Lemma validated_throw {A} (check : Result A) (store : A -> Method unit)
    (this : Signature) (e : Error) :
  (forall a this' e', store a this = (Throw e', this') -> this' = this) ->
  fst (validated check store this) = Throw e ->
  snd (validated check store this) = this.
Proof.
  intros Hstore. unfold validated. destruct check as [a|e0]; [|easy].
  destruct (store a this) as [[u|e'] this'] eqn:E; [discriminate|].
  intros _. now apply (Hstore a this' e').
Qed.

Lemma setStore_throw (key : string) (write : Props -> Props)
    (this this' : Signature) (e : Error) :
  setStore key write this = (Throw e, this') -> this' = this.
Proof.
  unfold setStore. destruct (frozen this); [|discriminate].
  now intros [= _ <-].
Qed.

Lemma set_r_throw (value : BytesLike) (this : Signature) (e : Error) :
  fst (set_r value this) = Throw e -> snd (set_r value this) = this.
Proof.
  apply validated_throw. intros a this' e'. apply setStore_throw.
Qed.

Lemma set_s_throw (value : BytesLike) (this : Signature) (e : Error) :
  fst (set_s value this) = Throw e -> snd (set_s value this) = this.
Proof.
  apply validated_throw. intros a this' e'. apply setStore_throw.
Qed.

Lemma set_v_throw (value : BigNumberish) (this : Signature) (e : Error) :
  fst (set_v value this) = Throw e -> snd (set_v value this) = this.
Proof.
  apply validated_throw. intros a this' e'. apply setStore_throw.
Qed.

(** What the setters leave behind. *)
Lemma set_r_state (value : BytesLike) (this : Signature) :
  snd (set_r value this) = this \/
  exists bytes : list byte,
    getBytes value "value" = Ok bytes /\ List.length bytes = 32 /\
    snd (set_r value this)
      = mkSignature (write_r ("0x" ++ hexDigits bytes) (props this)) false.
Proof.
  unfold set_r, validated.
  destruct (dataLength value) as [len|] eqn:Hlen; [|now left].
  cbn [bind]. destruct (Nat.eqb_spec len 32) as [->|]; [|now left].
  cbn [assertArgument bind]. unfold hexlify.
  destruct (getBytes value "value") as [bytes|] eqn:Hb; [|now left].
  cbn [bind]. unfold setStore. destruct (frozen this) eqn:Hf; [now left|].
  right. exists bytes.
  split; [reflexivity|]. split; [|reflexivity].
  now apply (dataLength_getBytes value).
Qed.

Lemma set_s_state (value : BytesLike) (this : Signature) :
  snd (set_s value this) = this \/
  exists bytes : list byte,
    getBytes value "value" = Ok bytes /\ List.length bytes = 32 /\
    highBit bytes = false /\
    snd (set_s value this)
      = mkSignature (write_s ("0x" ++ hexDigits bytes) (props this)) false.
Proof.
  unfold set_s, validated.
  destruct (dataLength value) as [len|] eqn:Hlen; [|now left].
  cbn [bind]. destruct (Nat.eqb_spec len 32) as [->|]; [|now left].
  cbn [assertArgument bind]. unfold hexlify.
  destruct (getBytes value "value") as [bytes|] eqn:Hb; [|now left].
  cbn [bind].
  destruct (N.land (first bytes) 128 =? 0)%N eqn:Hlow; [|now left].
  cbn [bind]. unfold setStore. destruct (frozen this) eqn:Hf; [now left|].
  right. exists bytes.
  split; [reflexivity|]. split; [|split; [|reflexivity]].
  - now apply (dataLength_getBytes value).
  - unfold highBit. now rewrite Hlow.
Qed.

Lemma set_v_state (value : BigNumberish) (this : Signature) :
  snd (set_v value this) = this \/
  (value = 27%Z \/ value = 28%Z) /\
  snd (set_v value this) = mkSignature (write_v value (props this)) false.
Proof.
  unfold set_v, validated, getNumber, assertArgument.
  destruct (_ && _); [|now left]. cbn [bind].
  destruct (Z.eqb_spec value 27) as [->|].
  { cbn [orb bind]. unfold setStore.
    destruct (frozen this) eqn:Hf; [now left|].
    right. split; [now left | reflexivity]. }
  destruct (Z.eqb_spec value 28) as [->|]; [|now left].
  cbn [orb bind]. unfold setStore.
  destruct (frozen this) eqn:Hf; [now left|].
  right. split; [now right | reflexivity].
Qed.

End Invariant.

Section Reachable.

(** What a successful [from] on a record went through. *)
Lemma from_object_inv sig (o : SignatureObject) (result : Signature) :
  from_object sig o = Ok result ->
  exists (r s : string) (sbytes : list byte) (networkV : option Z) (v : Z),
    notNull (sig_r o) = Some r /\
    isHexString r (Bytes 32) = true /\
    from_s sig (sig_s o) (sig_yParityAndS o) = Ok s /\
    getBytes (HexString s) "value" = Ok sbytes /\
    highBit sbytes = false /\
    from_v sig (sig_v o) (sig_yParityAndS o) (sig_yParity o)
      = Ok (networkV, v) /\
    result = mkSignature (mkProps r s v networkV) false.
Proof.
  intros H. pose proof H as H0. unfold from_object in H0.
  destruct (notNull (sig_r o)) as [r|] eqn:Hr; [|discriminate].
  destruct (isHexString r (Bytes 32)) eqn:Hrh; [|discriminate].
  cbn [assertError assertArgument bind] in H0.
  destruct (from_s _ _ _) as [s|] eqn:Hs; [|discriminate].
  cbn [bind] in H0.
  destruct (getBytes (HexString s) "value") as [sbytes|] eqn:Hsb;
    [|discriminate].
  cbn [bind] in H0.
  destruct (N.land (first sbytes) 128 =? 0)%N eqn:Hlow; [|discriminate].
  cbn [bind] in H0.
  destruct (from_v _ _ _ _) as [[networkV v]|] eqn:Hv; [|discriminate].
  assert (highBit sbytes = false) as Hc by (unfold highBit; now rewrite Hlow).
  exists r, s, sbytes, networkV, v. repeat (split; [assumption|]).
  destruct (from_object_outcome sig o r s sbytes Hr Hrh Hs Hsb Hc
              networkV v Hv) as [(e & He & _) | Hok].
  - rewrite He in H. discriminate.
  - rewrite Hok in H. now injection H.
Qed.

Lemma clone_exact (this : Signature) :
  get_networkV this <> Some 0%Z ->
  clone this = Ok (mkSignature (props this) false).
Proof.
  intros Hn. unfold clone. rewrite storeNetworkV_new by assumption.
  unfold get_r, get_s, get_v, get_networkV, getStore.
  now destruct (props this).
Qed.

(** [clone] always returns: a zero [networkV] is dropped, any other state
    is copied. *)
Lemma clone_total (this : Signature) :
  exists result : Signature, clone this = Ok result.
Proof.
  unfold clone, storeNetworkV, setStore, new. cbn [frozen].
  destruct (get_networkV this) as [n|]; eauto.
  destruct (n =? 0)%Z; eauto.
Qed.

Lemma valid_props (this other : Signature) :
  props other = props this -> valid this -> valid other.
Proof.
  unfold valid, get_r, get_s, get_v, get_networkV, getStore.
  now intros ->.
Qed.

Lemma valid_networkV (this : Signature) :
  valid this -> get_networkV this <> Some 0%Z.
Proof.
  intros (_ & _ & _ & [Hn | (n & Hn & Hge)]); rewrite Hn;
    [discriminate | intros [= ->]; lia].
Qed.

Lemma from_string_valid (str : string) (result : Signature) :
  from (SigString str) = Ok result -> valid result.
Proof.
  destruct (getBytes (HexString str) "signature") as [bytes|e] eqn:Hdec;
    [|unfold from; rewrite Hdec; discriminate].
  destruct (Nat.eq_dec (List.length bytes) 64) as [H64|H64].
  { rewrite (from_blob64 str bytes Hdec H64). intros [= <-].
    split; [apply isHexString_hexDigits, length_slice; lia|].
    split; [|split; [cbn; destruct (highBit _); auto | now left]].
    exists (clearHighBit (slice 32 64 bytes)).
    split; [apply getBytes_hexDigits|].
    split; [rewrite length_clearHighBit; apply length_slice; lia|].
    apply highBit_clearHighBit. }
  destruct (Nat.eq_dec (List.length bytes) 65) as [H65|H65].
  { rewrite (from_blob65 str bytes Hdec H65).
    destruct (highBit (slice 32 64 bytes)) eqn:Hh; [discriminate|].
    intros [= <-].
    split; [apply isHexString_hexDigits, length_slice; lia|].
    split; [|split; [apply getNormalizedV_range | now left]].
    exists (slice 32 64 bytes).
    split; [apply getBytes_hexDigits|].
    split; [apply length_slice; lia | exact Hh]. }
  now rewrite (from_blob_other str bytes Hdec H64 H65).
Qed.

Lemma from_object_valid sig (o : SignatureObject) (result : Signature) :
  from_object sig o = Ok result -> valid result.
Proof.
  intros H. apply from_object_inv in H
    as (r & s & sbytes & networkV & v & _ & Hrh & Hs & Hsb & Hc & Hv & ->).
  destruct (from_v_range _ _ _ _ _ _ Hv) as (Hn & Hv27).
  apply from_s_hex in Hs as (Hsh & _).
  destruct (isHexString_getBytes s 32 "value" Hsh) as (sb & Hsb' & Hlen).
  rewrite Hsb in Hsb'. injection Hsb' as <-.
  split; [exact Hrh|]. split; [|split; assumption].
  exists sbytes. auto.
Qed.

(** Every reachable instance satisfies the invariants. *)
Lemma reachable_valid (this : Signature) : reachable this -> valid this.
Proof.
  induction 1 as [sig result Hsig IH Hfrom | this result Hreach IH Hclone
                 | this value Hreach IH | this value Hreach IH
                 | this value Hreach IH | this Hreach IH].
  - destruct sig as [|str|inst|o].
    + injection Hfrom as <-. unfold valid. cbn.
      split; [reflexivity|]. split; [|split; [now left | now left]].
      exists zero_bytes. now repeat split.
    + now apply (from_string_valid str).
    + cbn [from] in Hfrom. specialize (IH inst eq_refl).
      rewrite (clone_exact inst (valid_networkV inst IH)) in Hfrom.
      injection Hfrom as <-. now apply (valid_props inst).
    + now apply (from_object_valid (SigObject o) o).
  - rewrite (clone_exact this (valid_networkV this IH)) in Hclone.
    injection Hclone as <-. now apply (valid_props this).
  - destruct (set_r_state value this) as [-> | (bytes & _ & Hlen & ->)];
      [exact IH|].
    destruct IH as (_ & Hs & Hv & Hn).
    split; [now apply isHexString_hexDigits|]. now split.
  - destruct (set_s_state value this)
      as [-> | (bytes & _ & Hlen & Hlow & ->)]; [exact IH|].
    destruct IH as (Hr & _ & Hv & Hn).
    split; [exact Hr|]. split; [|now split].
    exists bytes. split; [apply getBytes_hexDigits | now split].
  - destruct (set_v_state value this) as [-> | (Hval & ->)]; [exact IH|].
    destruct IH as (Hr & Hs & _ & Hn). now repeat split.
  - now apply (valid_props this).
Qed.

End Reachable.

(** ** Serialization and the way back *)

Section RoundTrip.

Variables (this : Signature) (rbytes sbytes : list byte).

Hypothesis r_decoded : getBytes (HexString (get_r this)) "value" = Ok rbytes.
Hypothesis s_decoded : getBytes (HexString (get_s this)) "value" = Ok sbytes.

Lemma get_serialized_decoded :
  get_serialized this =
    Ok ("0x" ++ hexDigits
          (rbytes ++ sbytes ++
           [if (get_v this =? 27)%Z then x1b else x1c])).
Proof.
  unfold get_serialized, concat, concatDigits, hexlify, get_yParity.
  rewrite r_decoded, s_decoded. cbn [bind].
  destruct (get_v this =? 27)%Z; cbn [Z.eqb bind];
    cbn [getBytes stripPrefix parsePairs digitValue bind];
    cbn [bind substring2 String.append];
    rewrite !hexDigits_app; reflexivity.
Qed.

Lemma get_compactSerialized_decoded :
  get_compactSerialized this =
    Ok ("0x" ++ hexDigits
          (rbytes ++
           (if (get_v this =? 27)%Z then sbytes else setHighBit sbytes))).
Proof.
  unfold get_compactSerialized.
  rewrite (get_yParityAndS_decoded this sbytes s_decoded). cbn [bind].
  unfold concat, concatDigits, hexlify.
  rewrite r_decoded, getBytes_hexDigits. cbn [bind substring2 String.append].
  rewrite hexDigits_app.
  now rewrite <- (hexDigits_app _ []), app_nil_r.
Qed.

Hypothesis r_length : List.length rbytes = 32.
Hypothesis s_length : List.length sbytes = 32.
Hypothesis s_canonical : highBit sbytes = false.
Hypothesis v_normal : get_v this = 27%Z \/ get_v this = 28%Z.

Lemma slice_r (rest : list byte) : slice 0 32 (rbytes ++ rest) = rbytes.
Proof.
  unfold slice. cbn [skipn Nat.sub].
  rewrite firstn_app, r_length.
  replace (firstn 32 rbytes) with rbytes
    by (rewrite <- r_length; now rewrite firstn_all).
  cbn [Nat.sub firstn]. apply app_nil_r.
Qed.

Lemma slice_s (middle rest : list byte) :
  List.length middle = 32 ->
  slice 32 64 (rbytes ++ middle ++ rest) = middle.
Proof.
  intros Hm. unfold slice. change (64 - 32) with 32.
  rewrite skipn_app, r_length.
  replace (skipn 32 rbytes) with (@nil byte)
    by (rewrite <- r_length; now rewrite skipn_all).
  cbn [Nat.sub skipn app]. rewrite firstn_app, Hm.
  replace (firstn 32 middle) with middle
    by (rewrite <- Hm; now rewrite firstn_all).
  cbn [Nat.sub firstn]. apply app_nil_r.
Qed.

(** Both binary forms construct again, with the same bytes in [r] and
    [s], written in lower case, the same [v], and no [networkV]. *)
Lemma round_trip_bytes :
  let back :=
    new ("0x" ++ hexDigits rbytes) ("0x" ++ hexDigits sbytes) (get_v this) in
  (exists serialized : string,
     get_serialized this = Ok serialized /\
     from (SigString serialized) = Ok back) /\
  (exists compact : string,
     get_compactSerialized this = Ok compact /\
     from (SigString compact) = Ok back).
Proof.
  intros back. split.
  - eexists. split; [apply get_serialized_decoded|].
    rewrite (from_blob65 _ _ (getBytes_hexDigits _ _))
      by (rewrite !length_app, r_length, s_length; reflexivity).
    rewrite slice_r, (slice_s sbytes _ s_length), s_canonical.
    assert (forall b : byte, nth 64 (rbytes ++ sbytes ++ [b]) x00 = b) as Hn.
    { intros b. rewrite app_assoc.
      replace 64 with (List.length (rbytes ++ sbytes))
        by (rewrite length_app, r_length, s_length; reflexivity).
      apply nth_middle. }
    rewrite Hn. unfold back.
    destruct v_normal as [-> | ->]; reflexivity.
  - eexists. split; [apply get_compactSerialized_decoded|].
    set (middle := if (get_v this =? 27)%Z then sbytes
                   else setHighBit sbytes).
    assert (List.length middle = 32) as Hm
      by (unfold middle; destruct (_ =? _)%Z;
          [|rewrite length_setHighBit]; exact s_length).
    rewrite (from_blob64 _ _ (getBytes_hexDigits _ _))
      by (rewrite length_app, r_length, Hm; reflexivity).
    rewrite slice_r.
    rewrite <- (app_nil_r middle) at 1 2.
    rewrite (slice_s middle [] Hm).
    unfold back, middle. destruct v_normal as [-> | ->].
    + change (27 =? 27)%Z with true. cbv iota.
      now rewrite s_canonical, clearHighBit_low.
    + change (28 =? 27)%Z with false. cbv iota.
      rewrite highBit_setHighBit, clearHighBit_setHighBit;
        [reflexivity | exact s_canonical |].
      intros E. rewrite E in s_length. discriminate s_length.
Qed.

End RoundTrip.

(** C5, as stated, fails: the instance built from a record whose [r] is
    written in upper case serializes and constructs again, but the [r] that
    comes back is the lower-case string, not the one the instance holds;
    so for both binary forms. *)
Lemma round_trip_changes_case :
  from (SigObject upper_case_record) = Ok upper_case_instance /\
  reachable upper_case_instance /\
  exists (serialized compact : string) (back : Signature),
    get_serialized upper_case_instance = Ok serialized /\
    get_compactSerialized upper_case_instance = Ok compact /\
    from (SigString serialized) = Ok back /\
    from (SigString compact) = Ok back /\
    get_r back = lower_case_r /\
    get_r back <> get_r upper_case_instance.
Proof.
  split; [reflexivity|]. split.
  - apply (reach_from (SigObject upper_case_record)); [discriminate|].
    reflexivity.
  - do 3 eexists. repeat (split; [reflexivity|]). discriminate.
Qed.

(** C5, amended.  For every instance that satisfies the invariants, both
    [from(serialized)] and [from(compactSerialized)] succeed, with one and
    the same result: its [r] and [s] are the lower-case hex strings of the
    bytes of the original [r] and [s], so they are the original strings
    whenever those are in lower case; its [v] is the original [v]; its
    [networkV] is null whatever the original's was. *)
Theorem round_trip_up_to_case (this : Signature) :
  valid this ->
  exists (rbytes sbytes : list byte) (serialized compact : string)
         (back : Signature),
    getBytes (HexString (get_r this)) "value" = Ok rbytes /\
    getBytes (HexString (get_s this)) "value" = Ok sbytes /\
    get_serialized this = Ok serialized /\
    get_compactSerialized this = Ok compact /\
    from (SigString serialized) = Ok back /\
    from (SigString compact) = Ok back /\
    get_r back = "0x" ++ hexDigits rbytes /\
    get_s back = "0x" ++ hexDigits sbytes /\
    getBytes (HexString (get_r back)) "value" = Ok rbytes /\
    getBytes (HexString (get_s back)) "value" = Ok sbytes /\
    (forall bytes, get_r this = "0x" ++ hexDigits bytes ->
       get_r back = get_r this) /\
    (forall bytes, get_s this = "0x" ++ hexDigits bytes ->
       get_s back = get_s this) /\
    get_v back = get_v this /\
    get_networkV back = None.
Proof.
  intros (Hr & (sbytes & Hs & Hslen & Hlow) & Hv & _).
  destruct (isHexString_getBytes _ 32 "value" Hr) as (rbytes & Hrb & Hrlen).
  destruct (round_trip_bytes this rbytes sbytes Hrb Hs Hrlen Hslen Hlow Hv)
    as ((serialized & Hser & Hback) & (compact & Hcom & Hback')).
  exists rbytes, sbytes, serialized, compact.
  eexists. repeat (split; [eassumption || reflexivity|]).
  split; [apply getBytes_hexDigits|]. split; [apply getBytes_hexDigits|].
  split; [|split; [|split; reflexivity]].
  - intros bytes E. rewrite E in Hrb. rewrite getBytes_hexDigits in Hrb.
    injection Hrb as ->. now rewrite E.
  - intros bytes E. rewrite E in Hs. rewrite getBytes_hexDigits in Hs.
    injection Hs as ->. now rewrite E.
Qed.

(** The amended C5 at the chain-bound instance with an upper-case [r]. *)
Lemma round_trip_up_to_case_witness :
  valid upper_case_instance /\
  exists (serialized : string) (back : Signature),
    get_serialized upper_case_instance = Ok serialized /\
    from (SigString serialized) = Ok back /\
    get_v back = 27%Z /\ get_networkV back = None.
Proof.
  assert (valid upper_case_instance) as Hvalid.
  { split; [reflexivity|]. split; [|split; [left; reflexivity|]].
    - exists zero_bytes. repeat split; reflexivity.
    - right. exists 37%Z. split; [reflexivity|]. discriminate. }
  split; [exact Hvalid|].
  destruct (round_trip_up_to_case upper_case_instance Hvalid)
    as (rbytes & sbytes & serialized & compact & back & _ & _ & Hser & _
        & Hback & _ & _ & _ & _ & _ & _ & _ & Hv & Hn).
  exists serialized, back. repeat split; assumption.
Defined.

(** ** The setters and [freeze] *)

(** C8 at a value of one byte handed to the [s] setter: the length check
    fails, the store is left as it was and the error carries the value, but
    its message names [r], the text of the check in the [r] setter. *)
Theorem set_s_wrong_length_names_r :
  let this := new example_r ZeroHash 27 in
  set_s (HexString "0x00") this =
    (Throw (mkError INVALID_ARGUMENT "invalid r" "value"
              (Some (SuppliedBytes (HexString "0x00")))),
     this) /\
  set_r (HexString "0x00") this =
    (Throw (mkError INVALID_ARGUMENT "invalid r" "value"
              (Some (SuppliedBytes (HexString "0x00")))),
     this).
Proof. split; reflexivity. Qed.

(** The other failures of the setters name their own field. *)
Example setters_name_their_field :
  let this := new example_r ZeroHash 27 in
  let high :=
    "0x8000000000000000000000000000000000000000000000000000000000000000" in
  set_s (HexString high) this =
    (Throw (mkError INVALID_ARGUMENT "non-canonical s" "value"
              (Some (SuppliedBytes (HexString high)))),
     this) /\
  set_v 29%Z this =
    (Throw (mkError INVALID_ARGUMENT "invalid v" "v"
              (Some (SuppliedNumber 29%Z))),
     this).
Proof. split; reflexivity. Qed.

(** On a store that is not frozen, a value that passes the checks is
    written, as its lower-case hex string. *)
Lemma setters_store (this : Signature) (bytes : list byte) :
  frozen this = false ->
  List.length bytes = 32 ->
  set_r (Uint8Array bytes) this =
    (Ok tt, mkSignature (write_r ("0x" ++ hexDigits bytes) (props this))
              false) /\
  (highBit bytes = false ->
   set_s (Uint8Array bytes) this =
     (Ok tt, mkSignature (write_s ("0x" ++ hexDigits bytes) (props this))
               false)) /\
  set_v 27%Z this = (Ok tt, mkSignature (write_v 27 (props this)) false) /\
  set_v 28%Z this = (Ok tt, mkSignature (write_v 28 (props this)) false).
Proof.
  intros Hf Hlen. unfold set_r, set_s, set_v, validated, setStore.
  cbn [dataLength getBytes hexlify bind]. rewrite Hlen, Hf.
  cbn [Nat.eqb assertArgument bind].
  split; [reflexivity|]. split; [|split; reflexivity].
  unfold highBit. intros Hlow. apply negb_false_iff in Hlow.
  now rewrite Hlow.
Qed.

Lemma frozen_setter_throws {A} (check : Result A) (key : A -> string)
    (write : A -> Props -> Props) (this : Signature) :
  frozen this = true ->
  exists e : Error,
    validated check (fun a => setStore (key a) (write a)) this
      = (Throw e, this).
Proof.
  intros Hf. unfold validated, setStore. destruct check as [a|e].
  - rewrite Hf. eauto.
  - eauto.
Qed.

(** C10.  The [networkV] of a reachable instance is null or at least 35,
    never 0 nor a value below 35; so the truthiness test in [clone] never
    drops one, and the copy carries the same [networkV]. *)
Theorem networkV_null_or_chain_bound (this : Signature) :
  reachable this ->
  (get_networkV this = None \/
   exists n : Z, get_networkV this = Some n /\ (35 <= n)%Z) /\
  exists copy : Signature,
    clone this = Ok copy /\ get_networkV copy = get_networkV this.
Proof.
  intros Hreach. pose proof (reachable_valid this Hreach) as Hvalid.
  split; [apply Hvalid|].
  exists (mkSignature (props this) false).
  split; [|reflexivity]. apply clone_exact. now apply valid_networkV.
Qed.

Lemma reachable_chain_bound :
  reachable (mkSignature (mkProps example_r ZeroHash 27 (Some 37%Z)) false).
Proof.
  apply (reach_from (SigObject chain_bound_record)); [discriminate|].
  reflexivity.
Defined.

(** C10 at the instance built from [{ r, s, v: 37 }]. *)
Lemma networkV_null_or_chain_bound_witness :
  exists copy : Signature,
    clone (mkSignature (mkProps example_r ZeroHash 27 (Some 37%Z)) false)
      = Ok copy /\
    get_networkV copy = Some 37%Z.
Proof.
  destruct (networkV_null_or_chain_bound _ reachable_chain_bound)
    as (_ & copy & Hclone & Hn).
  exists copy. split; [exact Hclone | exact Hn].
Defined.

(** C9.  Once a reachable instance is frozen, every call of the [r], [s]
    and [v] setters throws and leaves it as it is, so each getter still
    returns what it returned when [freeze] was called; its [clone] is a
    new instance that is not frozen and holds the same [r], [s], [v] and
    [networkV]. *)
Theorem freeze_then_set_or_clone (this : Signature) :
  reachable this ->
  let held := snd (freeze this) in
  isFrozen held = true /\
  (forall value, exists e, set_r value held = (Throw e, held)) /\
  (forall value, exists e, set_s value held = (Throw e, held)) /\
  (forall value, exists e, set_v value held = (Throw e, held)) /\
  (get_r held = get_r this /\ get_s held = get_s this /\
   get_v held = get_v this /\ get_networkV held = get_networkV this) /\
  exists copy : Signature,
    clone held = Ok copy /\
    isFrozen copy = false /\
    get_r copy = get_r this /\ get_s copy = get_s this /\
    get_v copy = get_v this /\ get_networkV copy = get_networkV this.
Proof.
  intros Hreach held. pose proof (reachable_valid this Hreach) as Hvalid.
  split; [reflexivity|].
  split; [intros value; now apply frozen_setter_throws|].
  split; [intros value; now apply frozen_setter_throws|].
  split; [intros value; now apply frozen_setter_throws|].
  split; [now repeat split|].
  exists (mkSignature (props this) false). split; [|now repeat split].
  apply (clone_exact held). now apply (valid_networkV this).
Qed.

(** C9 at the frozen chain-bound instance and a well-formed new [r]. *)
Lemma freeze_then_set_or_clone_witness :
  let held :=
    mkSignature (mkProps example_r ZeroHash 27 (Some 37%Z)) true in
  (exists e, set_r (HexString ZeroHash) held = (Throw e, held)) /\
  clone held =
    Ok (mkSignature (mkProps example_r ZeroHash 27 (Some 37%Z)) false).
Proof.
  destruct (freeze_then_set_or_clone _ reachable_chain_bound)
    as (_ & Hr & _ & _ & _ & copy & Hclone & _).
  split; [apply (Hr (HexString ZeroHash)) | reflexivity].
Defined.

(** ** EIP-155 values and the chain id *)

Section Eip155.

Lemma getChainId_from_35 (raw : Z) :
  (35 <= raw)%Z -> getChainId raw = Ok ((raw - 35) / 2)%Z.
Proof.
  intros Hraw. unfold getChainId, getBigInt.
  destruct (Z.eqb_spec raw 27); [lia|]. destruct (Z.eqb_spec raw 28); [lia|].
  cbn [orb]. destruct (Z.leb_spec 35 raw); [|lia].
  cbn [assertArgument bind]. now rewrite Z.quot_div_nonneg by lia.
Qed.

Lemma getNormalizedV_from_2 (raw : Z) :
  (2 <= raw)%Z -> getNormalizedV raw = if Z.odd raw then 27%Z else 28%Z.
Proof.
  intros Hraw. unfold getNormalizedV, getBigInt.
  destruct (Z.eqb_spec raw 0); [lia|]. destruct (Z.eqb_spec raw 1); [lia|].
  now rewrite land_1_odd.
Qed.

Lemma encode_decode (raw : Z) :
  (35 <= raw)%Z ->
  getChainIdV ((raw - 35) / 2) (getNormalizedV raw) = raw.
Proof.
  intros Hraw. rewrite getNormalizedV_from_2 by lia.
  unfold getChainIdV, getBigInt.
  pose proof (Z.div_mod (raw - 35) 2 ltac:(lia)) as Hdiv.
  pose proof (Z.mod_pos_bound (raw - 35) 2 ltac:(lia)) as Hmod.
  destruct (Z.odd raw) eqn:Hodd.
  - apply Z.odd_spec in Hodd as (k & ->). lia.
  - assert (Z.even raw = true) as Heven
      by (rewrite <- Z.negb_odd; now rewrite Hodd).
    apply Z.even_spec in Heven as (k & ->). lia.
Qed.

(** X1.  Every EIP-155 [v] of at least 35 is rebuilt from its two parts:
    [getChainId] returns a chain id that is not negative, and
    [getChainIdV] of that chain id and of [getNormalizedV] of the value is
    the value again. *)
Theorem getChainIdV_of_parts (raw : Z) :
  (35 <= raw)%Z ->
  exists chainId : Z,
    getChainId raw = Ok chainId /\
    (0 <= chainId)%Z /\
    getChainIdV chainId (getNormalizedV raw) = raw.
Proof.
  intros Hraw. exists ((raw - 35) / 2)%Z.
  split; [now apply getChainId_from_35|].
  split; [apply Z.div_pos; lia | now apply encode_decode].
Qed.

(** X1 at 38: chain id 1 and [v = 28]. *)
Lemma getChainIdV_of_parts_witness :
  exists chainId : Z,
    getChainId 38 = Ok chainId /\ getChainIdV chainId (getNormalizedV 38)
                                  = 38%Z.
Proof.
  destruct (getChainIdV_of_parts 38) as (chainId & Hc & _ & Hv); [lia|].
  exists chainId. split; [exact Hc | exact Hv].
Defined.

(** X2.  [getNormalizedV] recovers the [v] that [getChainIdV] encoded: for
    a chain id that is not negative and [v] in {27, 28},
    [getNormalizedV (getChainIdV chainId v)] is [v]. *)
Theorem getNormalizedV_getChainIdV (chainId v : Z) :
  (0 <= chainId)%Z -> v = 27%Z \/ v = 28%Z ->
  getNormalizedV (getChainIdV chainId v) = v.
Proof.
  intros Hc Hv. rewrite getNormalizedV_from_2
    by (unfold getChainIdV, getBigInt; lia).
  unfold getChainIdV, getBigInt. destruct Hv as [-> | ->].
  - replace (chainId * 2 + (35 + 27 - 27))%Z
      with (1 + 2 * (chainId + 17))%Z by lia.
    now rewrite Z.odd_add_mul_2.
  - replace (chainId * 2 + (35 + 28 - 27))%Z
      with (0 + 2 * (chainId + 18))%Z by lia.
    now rewrite Z.odd_add_mul_2.
Qed.

(** X2 at chain id 5 and [v = 27]. *)
Lemma getNormalizedV_getChainIdV_witness :
  getNormalizedV (getChainIdV 5 27) = 27%Z.
Proof. apply getNormalizedV_getChainIdV; [lia | now left]. Defined.

Lemma from_v_networkV sig (raw_v : field BigNumberish)
    (yParityAndS : field string) (yParity : field Z) (n v : Z) :
  from_v sig raw_v yParityAndS yParity = Ok (Some n, v) ->
  notNull raw_v = Some n /\ (35 <= n)%Z /\ v = getNormalizedV n.
Proof.
  unfold from_v.
  destruct (notNull raw_v) as [raw|].
  { unfold getBigInt. destruct (Z.leb_spec 35 raw) as [Hge|]; [|discriminate].
    intros E. inversion E. subst. auto. }
  destruct (notNull yParityAndS) as [y|].
  { destruct (isHexString y (Bytes 32)); [|discriminate].
    cbn [assertError assertArgument bind].
    destruct (getBytes _ _); discriminate. }
  destruct (notNull yParity) as [p|]; [|discriminate].
  destruct (p =? 0)%Z; [discriminate|].
  destruct (p =? 1)%Z; discriminate.
Qed.

(** X3.  An instance that [from] builds from anything but another instance
    has a [networkV] only if the input was a record with an explicit [v]
    of at least 35; that [networkV] is this [v], the stored [v] is its
    normal form, [legacyChainId] is the floor of [(networkV - 35) / 2],
    and [getChainIdV] of the chain id and [v] is [networkV] again. *)
Theorem from_networkV_consistent (sig : SignatureLike)
    (result : Signature) (n : Z) :
  (forall this, sig <> SigInstance this) ->
  from sig = Ok result ->
  get_networkV result = Some n ->
  (exists o, sig = SigObject o /\ sig_v o = Value n) /\
  (35 <= n)%Z /\
  get_v result = getNormalizedV n /\
  get_legacyChainId result = Ok (Some ((n - 35) / 2)%Z) /\
  getChainIdV ((n - 35) / 2) (get_v result) = n.
Proof.
  intros Hsig Hfrom Hn. destruct sig as [|str|inst|o].
  - injection Hfrom as <-. discriminate Hn.
  - exfalso.
    destruct (getBytes (HexString str) "signature") as [bytes|e] eqn:Hdec;
      [|unfold from in Hfrom; rewrite Hdec in Hfrom; discriminate].
    destruct (Nat.eq_dec (List.length bytes) 64) as [H64|H64].
    { rewrite (from_blob64 str bytes Hdec H64) in Hfrom.
      injection Hfrom as <-. discriminate Hn. }
    destruct (Nat.eq_dec (List.length bytes) 65) as [H65|H65].
    { rewrite (from_blob65 str bytes Hdec H65) in Hfrom.
      destruct (highBit _); [discriminate|].
      injection Hfrom as <-. discriminate Hn. }
    rewrite (from_blob_other str bytes Hdec H64 H65) in Hfrom.
    discriminate.
  - now destruct (Hsig inst).
  - cbn [from] in Hfrom. apply from_object_inv in Hfrom
      as (r & s & sbytes & networkV & v & _ & _ & _ & _ & _ & Hv & ->).
    cbn in Hn. subst networkV.
    apply from_v_networkV in Hv as (Hraw & Hge & ->).
    split.
    { exists o. split; [reflexivity|].
      destruct (sig_v o); (discriminate || now injection Hraw as ->). }
    split; [exact Hge|]. split; [reflexivity|].
    split; [|now apply encode_decode].
    unfold get_legacyChainId, get_networkV, getStore. cbn [props networkV].
    now rewrite getChainId_from_35.
Qed.

(** X3 at [{ r, s, v: 37 }]. *)
Lemma from_networkV_consistent_witness :
  get_legacyChainId
    (mkSignature (mkProps example_r ZeroHash 27 (Some 37%Z)) false)
    = Ok (Some 1%Z).
Proof.
  destruct (from_networkV_consistent (SigObject chain_bound_record)
              (mkSignature (mkProps example_r ZeroHash 27 (Some 37%Z))
                 false) 37%Z)
    as (_ & _ & _ & Hchain & _);
    [discriminate | reflexivity | reflexivity | exact Hchain].
Defined.

(** X4.  On a reachable instance the [legacyChainId] getter never throws:
    it is null when [networkV] is null and otherwise the chain id
    [(networkV - 35) / 2], which is not negative. *)
Theorem legacyChainId_never_throws (this : Signature) :
  reachable this ->
  (get_networkV this = None /\ get_legacyChainId this = Ok None) \/
  (exists n : Z,
     get_networkV this = Some n /\
     get_legacyChainId this = Ok (Some ((n - 35) / 2)%Z) /\
     (0 <= (n - 35) / 2)%Z).
Proof.
  intros Hreach.
  destruct (reachable_valid this Hreach)
    as (_ & _ & _ & [Hn | (n & Hn & Hge)]).
  - left. split; [exact Hn|]. unfold get_legacyChainId. now rewrite Hn.
  - right. exists n. split; [exact Hn|]. split; [|apply Z.div_pos; lia].
    unfold get_legacyChainId. rewrite Hn.
    now rewrite getChainId_from_35.
Qed.

(** X4 at the instance built from [{ r, s, v: 37 }]. *)
Lemma legacyChainId_never_throws_witness :
  exists chainId : option Z,
    get_legacyChainId
      (mkSignature (mkProps example_r ZeroHash 27 (Some 37%Z)) false)
      = Ok chainId.
Proof.
  destruct (legacyChainId_never_throws _ reachable_chain_bound)
    as [(_ & H) | (n & _ & H & _)]; eexists; exact H.
Defined.

End Eip155.

(** ** What [from] accepts, and how it fails *)

Section Acceptance.

Lemma getBytes_string_length (str name : string) (bytes : list byte) :
  getBytes (HexString str) name = Ok bytes ->
  String.length str = 2 + 2 * List.length bytes.
Proof.
  intros H. apply getBytes_isHexString in H. unfold isHexString in H.
  destruct (stripPrefix str); [|discriminate].
  apply andb_true_iff in H as (_ & H). now apply Nat.eqb_eq in H.
Qed.

(** X5.  [from] on a string succeeds only on ["0x"] followed by 128 or 130
    hexadecimal digits: a string [getBytes] does not decode fails with the
    error of [getBytes], naming the argument [signature]; one that decodes
    to a number of bytes other than 64 and 65 fails with the raw-length
    error. *)
Theorem from_string_lengths (str : string) :
  (forall e : Error,
     getBytes (HexString str) "signature" = Throw e ->
     from (SigString str) = Throw e /\
     e = mkError INVALID_ARGUMENT "invalid BytesLike value" "signature"
           (Some (SuppliedBytes (HexString str)))) /\
  (forall bytes : list byte,
     getBytes (HexString str) "signature" = Ok bytes ->
     List.length bytes <> 64 -> List.length bytes <> 65 ->
     from (SigString str) =
       Throw (mkError INVALID_ARGUMENT "invlaid raw signature length"
                "signature" (Some (SuppliedSignature (SigString str))))) /\
  (forall result : Signature,
     from (SigString str) = Ok result ->
     exists bytes : list byte,
       getBytes (HexString str) "signature" = Ok bytes /\
       (List.length bytes = 64 /\ String.length str = 130 \/
        List.length bytes = 65 /\ String.length str = 132)).
Proof.
  split; [|split].
  - intros e He. split; [unfold from; now rewrite He|].
    revert He. cbn [getBytes]. destruct (stripPrefix str) as [digits|].
    + destruct (parsePairs digits); [discriminate | now intros [= <-]].
    + now intros [= <-].
  - intros bytes Hdec H64 H65. now apply (from_blob_other str bytes).
  - intros result Hfrom.
    destruct (getBytes (HexString str) "signature") as [bytes|e] eqn:Hdec;
      [|unfold from in Hfrom; rewrite Hdec in Hfrom; discriminate].
    exists bytes. split; [reflexivity|].
    pose proof (getBytes_string_length _ _ _ Hdec) as Hlen.
    destruct (Nat.eq_dec (List.length bytes) 64) as [H64|H64];
      [left; split; [exact H64 | lia]|].
    destruct (Nat.eq_dec (List.length bytes) 65) as [H65|H65];
      [right; split; [exact H65 | lia]|].
    rewrite (from_blob_other str bytes Hdec H64 H65) in Hfrom.
    discriminate.
Qed.

(** X5 at a string of 63 bytes. *)
Lemma from_string_lengths_witness :
  let short :=
    example_r ++
    "80000000000000000000000000000000000000000000000000000000000000" in
  from (SigString short) =
    Throw (mkError INVALID_ARGUMENT "invlaid raw signature length"
             "signature" (Some (SuppliedSignature (SigString short)))).
Proof.
  intros short.
  destruct (from_string_lengths short) as (_ & Hlen & _).
  destruct (getBytes (HexString short) "signature") as [bytes|e] eqn:Hdec;
    [|discriminate Hdec].
  apply (Hlen bytes eq_refl); injection Hdec as <-; discriminate.
Defined.

(** X6.  On a blob of 65 bytes whose [s] part has its top bit clear [from]
    never rejects the last byte: [r] and [s] are the hex strings of bytes
    0..31 and 32..63, [v] is 27 when the last byte is 0 or an odd value
    other than 1 and 28 otherwise, and there is no [networkV], not even
    for a last byte of 35 or more. *)
Theorem from_blob65_any_v (str : string) (bytes : list byte) :
  getBytes (HexString str) "signature" = Ok bytes ->
  List.length bytes = 65 ->
  N.testbit (Byte.to_N (nth 32 bytes x00)) 7 = false ->
  let last := Byte.to_N (nth 64 bytes x00) in
  from (SigString str) =
    Ok (mkSignature
          (mkProps ("0x" ++ hexDigits (firstn 32 bytes))
                   ("0x" ++ hexDigits (firstn 32 (skipn 32 bytes)))
                   (if (last =? 0)%N then 27%Z
                    else if (last =? 1)%N then 28%Z
                    else if N.odd last then 27%Z else 28%Z)
                   None)
          false).
Proof.
  intros Hdec Hlen Hbit last.
  rewrite (from_blob65 str bytes Hdec Hlen).
  rewrite (highBit_slice32 bytes), Hbit by lia.
  unfold new, slice. cbn [Nat.sub skipn]. do 3 f_equal.
  fold last. unfold getNormalizedV, getBigInt.
  rewrite land_1_odd.
  destruct (N.eqb_spec last 0) as [->|H0]; [reflexivity|].
  destruct (N.eqb_spec last 1) as [->|H1]; [reflexivity|].
  destruct (Z.eqb_spec (Z.of_N last) 0); [lia|].
  destruct (Z.eqb_spec (Z.of_N last) 1); [lia|].
  destruct last as [|p]; [contradiction|]. now destruct p.
Qed.

(** X6 at a blob whose last byte is 0x25 (37). *)
Lemma from_blob65_any_v_witness :
  from (SigString (example_r ++ substring 2 64 ZeroHash ++ "25")) =
    Ok (mkSignature (mkProps example_r ZeroHash 27 None) false).
Proof.
  pose (blob := example_r ++ substring 2 64 ZeroHash ++ "25").
  destruct (getBytes (HexString blob) "signature") as [bytes|e] eqn:Hdec;
    [|discriminate Hdec].
  pose proof (from_blob65_any_v blob bytes Hdec) as H.
  injection Hdec as <-. exact (H eq_refl eq_refl).
Defined.

Lemma notNull_Value {A} (f : field A) (a : A) :
  notNull f = Some a -> f = Value a.
Proof. destruct f; (discriminate || now intros [= ->]). Qed.

Lemma from_s_explicit sig (fs fy : field string) (s resolved : string) :
  fs = Value s -> from_s sig fs fy = Ok resolved -> resolved = s.
Proof.
  intros ->. unfold from_s. cbn [notNull].
  destruct (isHexString s (Bytes 32)); [|discriminate]. now intros [= <-].
Qed.

(** X7.  [from] stores the [r] of a record, and its [s] when it has one,
    as the very strings it was given, in whatever case their digits are
    written, and the instance it returns is not frozen. *)
Theorem from_keeps_supplied_strings (o : SignatureObject)
    (result : Signature) :
  from (SigObject o) = Ok result ->
  sig_r o = Value (get_r result) /\
  (forall s : string, sig_s o = Value s -> get_s result = s) /\
  isFrozen result = false.
Proof.
  cbn [from]. intros H. apply from_object_inv in H
    as (r & s & sbytes & networkV & v & Hr & _ & Hs & _ & _ & _ & ->).
  split; [now apply notNull_Value|]. split; [|reflexivity].
  intros s' Hs'.
  now rewrite (from_s_explicit _ _ _ s' s Hs' Hs).
Qed.

(** X7 at the record with an upper-case [r]. *)
Lemma from_keeps_supplied_strings_witness :
  sig_r upper_case_record = Value (get_r upper_case_instance) /\
  isFrozen upper_case_instance = false.
Proof.
  destruct (from_keeps_supplied_strings upper_case_record
              upper_case_instance eq_refl) as (Hr & _ & Hf).
  split; [exact Hr | exact Hf].
Defined.

End Acceptance.

Section Errors.

Lemma reportsInput_failError sig (message : string) (e : Error) :
  e = mkError INVALID_ARGUMENT message "signature"
        (Some (SuppliedSignature sig)) ->
  reportsInput sig e.
Proof. intros ->. now repeat split. Qed.

Lemma from_s_error sig (fs fy : field string) (e : Error) :
  from_s sig fs fy = Throw e -> reportsInput sig e.
Proof.
  unfold from_s. destruct (notNull fs) as [s|].
  { destruct (isHexString s (Bytes 32)); [discriminate|].
    intros [= <-]. now repeat split. }
  destruct (notNull fy) as [y|]; [|intros [= <-]; now repeat split].
  destruct (isHexString y (Bytes 32)) eqn:Hy;
    [|intros [= <-]; now repeat split].
  destruct (isHexString_getBytes y 32 "value" Hy) as (yb & Hyb & _).
  cbn [assertError assertArgument bind]. rewrite Hyb. discriminate.
Qed.

Lemma from_v_error sig (raw_v : field BigNumberish)
    (fy : field string) (fp : field Z) (e : Error) :
  from_v sig raw_v fy fp = Throw e -> reportsInput sig e.
Proof.
  unfold from_v. destruct (notNull raw_v); [discriminate|].
  destruct (notNull fy) as [y|].
  { destruct (isHexString y (Bytes 32)) eqn:Hy;
      [|intros [= <-]; now repeat split].
    destruct (isHexString_getBytes y 32 "value" Hy) as (yb & Hyb & _).
    cbn [assertError assertArgument bind]. rewrite Hyb. discriminate. }
  destruct (notNull fp) as [p|]; [|intros [= <-]; now repeat split].
  destruct (p =? 0)%Z; [discriminate|].
  destruct (p =? 1)%Z; [discriminate|intros [= <-]; now repeat split].
Qed.

Lemma from_object_error sig (o : SignatureObject) (e : Error) :
  from_object sig o = Throw e -> reportsInput sig e.
Proof.
  intros H. pose proof H as H0. unfold from_object in H0.
  destruct (notNull (sig_r o)) as [r|] eqn:Hr;
    [|injection H0 as <-; now repeat split].
  destruct (isHexString r (Bytes 32)) eqn:Hrh;
    [|injection H0 as <-; now repeat split].
  cbn [assertError assertArgument bind] in H0.
  destruct (from_s _ _ _) as [s|es] eqn:Hs;
    [|injection H0 as <-; now apply from_s_error in Hs].
  cbn [bind] in H0.
  pose proof Hs as Hsh. apply from_s_hex in Hsh as (Hsh & _).
  destruct (isHexString_getBytes s 32 "value" Hsh) as (sbytes & Hsb & _).
  rewrite Hsb in H0. cbn [bind] in H0.
  destruct (N.land (first sbytes) 128 =? 0)%N eqn:Hlow;
    [|injection H0 as <-; now repeat split].
  cbn [bind] in H0.
  destruct (from_v _ _ _ _) as [[networkV v]|ev] eqn:Hv;
    [|injection H0 as <-; now apply from_v_error in Hv].
  assert (highBit sbytes = false) as Hc by (unfold highBit; now rewrite Hlow).
  destruct (from_object_outcome sig o r s sbytes Hr Hrh Hs Hsb Hc
              networkV v Hv) as [(e' & He & [-> | ->]) | Hok].
  - rewrite He in H. injection H as <-. now repeat split.
  - rewrite He in H. injection H as <-. now repeat split.
  - rewrite Hok in H. discriminate.
Qed.

Lemma getBytes_error_shape (str : string) (e : Error) :
  getBytes (HexString str) "signature" = Throw e ->
  code e = INVALID_ARGUMENT /\
  argument e = "signature" /\
  value e = Some (SuppliedBytes (HexString str)).
Proof.
  cbn [getBytes]. destruct (stripPrefix str) as [digits|].
  - destruct (parsePairs digits); [discriminate|].
    intros [= <-]. now repeat split.
  - intros [= <-]. now repeat split.
Qed.

(** X8.  On an input whose [v], when it has one, is a [bigint], which
    [getBigInt] returns as it is (the inputs of this embedding; a [v]
    that [getBigInt] refuses is outside it), whatever [from] throws is an
    argument error that names the argument [signature]; it carries the
    whole input, except that a string which is no hex string is reported
    by [getBytes] as the string itself.  [from] on an instance never
    throws. *)
Theorem from_errors_name_signature (sig : SignatureLike) (e : Error) :
  from sig = Throw e ->
  code e = INVALID_ARGUMENT /\
  argument e = "signature" /\
  (forall this, sig <> SigInstance this) /\
  (value e = Some (SuppliedSignature sig) \/
   exists str, sig = SigString str /\
               value e = Some (SuppliedBytes (HexString str))).
Proof.
  destruct sig as [|str|inst|o]; cbn [from].
  - discriminate.
  - intros H.
    destruct (getBytes (HexString str) "signature") as [bytes|e'] eqn:Hdec.
    + cbn [bind] in H.
      assert (reportsInput (SigString str) e) as (Hc & Ha & Hv).
      { destruct (Nat.eqb (List.length bytes) 64); [discriminate|].
        destruct (Nat.eqb (List.length bytes) 65).
        - cbn [hexlify getBytes bind] in H. unfold assertError in H.
          destruct (N.land _ 128 =? 0)%N; [discriminate|].
          injection H as <-. now repeat split.
        - injection H as <-. now repeat split. }
      repeat split; auto. discriminate.
    + cbn [bind] in H. injection H as <-.
      destruct (getBytes_error_shape str e' Hdec) as (Hc & Ha & Hv).
      repeat split; eauto. discriminate.
  - intros H. destruct (clone_total inst) as (copy & Hcopy).
    rewrite Hcopy in H. discriminate.
  - intros H. apply from_object_error in H as (Hc & Ha & Hv).
    repeat split; auto. discriminate.
Qed.

(** X8 at the record whose [yParity] contradicts its [v]. *)
Lemma from_errors_name_signature_witness :
  exists e : Error,
    from (SigObject contradictory_record) = Throw e /\
    argument e = "signature" /\
    value e = Some (SuppliedSignature (SigObject contradictory_record)).
Proof.
  eexists. split; [reflexivity|].
  destruct (from_errors_name_signature (SigObject contradictory_record) _
              eq_refl) as (_ & Ha & _ & _).
  split; [exact Ha | reflexivity].
Defined.

End Errors.

(** ** The redundant keys of an accepted record *)

Section Redundant.

Lemma clone_not_frozen (this copy : Signature) :
  clone this = Ok copy -> isFrozen copy = false.
Proof.
  unfold clone, storeNetworkV, setStore, new. cbn [frozen].
  destruct (get_networkV this) as [n|]; [|now intros [= <-]].
  destruct (n =? 0)%Z; now intros [= <-].
Qed.

(** X9.  [from] never returns a frozen instance, whatever it is given: not
    for a frozen instance either, of which it returns a copy. *)
Theorem from_never_frozen (sig : SignatureLike) (result : Signature) :
  from sig = Ok result -> isFrozen result = false.
Proof.
  destruct sig as [|str|inst|o]; cbn [from].
  - now intros [= <-].
  - destruct (getBytes (HexString str) "signature") as [bytes|]; cbn [bind];
      [|discriminate].
    destruct (Nat.eqb (List.length bytes) 64); [now intros [= <-]|].
    destruct (Nat.eqb (List.length bytes) 65); [|discriminate].
    cbn [hexlify getBytes bind]. unfold assertError, assertArgument.
    destruct (N.land _ 128 =? 0)%N; [now intros [= <-] | discriminate].
  - apply clone_not_frozen.
  - intros H. apply from_object_inv in H
      as (r & s & sbytes & networkV & v & _ & _ & _ & _ & _ & _ & ->).
    reflexivity.
Qed.

(** X9 at a frozen instance. *)
Lemma from_never_frozen_witness :
  exists copy : Signature,
    from (SigInstance
            (mkSignature (mkProps example_r ZeroHash 27 (Some 37%Z)) true))
      = Ok copy /\
    isFrozen copy = false.
Proof.
  eexists. split; [reflexivity|].
  exact (from_never_frozen
           (SigInstance
              (mkSignature (mkProps example_r ZeroHash 27 (Some 37%Z)) true))
           _ eq_refl).
Defined.

(** X10.  In a record that [from] accepts, a [yParity] key holds the
    [yParity] of the result and a [yParityAndS] key holds the very string
    its [yParityAndS] getter returns, 32 bytes in lower-case digits; a
    key that is present and [undefined], or a [yParityAndS] spelled with
    an upper-case digit, is never accepted. *)
Theorem from_redundant_keys_match (o : SignatureObject)
    (result : Signature) :
  from (SigObject o) = Ok result ->
  (sig_yParity o = Missing \/ sig_yParity o = Value (get_yParity result)) /\
  (sig_yParityAndS o = Missing \/
   exists bytes : list byte,
     List.length bytes = 32 /\
     sig_yParityAndS o = Value ("0x" ++ hexDigits bytes) /\
     get_yParityAndS result = Ok ("0x" ++ hexDigits bytes)).
Proof.
  cbn [from]. intros H. pose proof H as H0.
  apply from_object_inv in H0
    as (r & s & sbytes & networkV & v & Hr & Hrh & Hs & Hsb & Hc & Hv & ->).
  rewrite (from_object_resolved _ o r s sbytes networkV v) in H
    by assumption.
  cbv zeta in H. unfold assertError, assertArgument in H.
  set (derived := "0x" ++ hexDigits _) in H.
  destruct (hasKey (sig_yParity o) && _) eqn:EY; [discriminate|].
  cbn [negb bind] in H. split.
  { now apply yParityDiffers_agree in EY. }
  destruct (hasKey (sig_yParityAndS o)) eqn:EK.
  - destruct (yParityAndSDiffers (sig_yParityAndS o) derived) eqn:EYS;
      [discriminate|].
    assert (hasKey (sig_yParityAndS o) &&
            yParityAndSDiffers (sig_yParityAndS o) derived = false) as E
      by now rewrite EK, EYS.
    apply yParityAndSDiffers_agree in E as [E|E]; [now left|].
    right. exists (if (v =? 27)%Z then sbytes else setHighBit sbytes).
    split; [|split; [exact E|]].
    + apply from_s_hex in Hs as (Hsh & _).
      destruct (isHexString_getBytes s 32 "value" Hsh) as (sb & Hsb' & Hlen).
      rewrite Hsb in Hsb'. injection Hsb' as <-.
      destruct (v =? 27)%Z; [|rewrite length_setHighBit]; exact Hlen.
    + exact (get_yParityAndS_decoded
               (mkSignature (mkProps r s v networkV) false) sbytes Hsb).
  - left. destruct (sig_yParityAndS o); (reflexivity || discriminate).
Qed.

(** X10 at the record whose keys all agree. *)
Lemma from_redundant_keys_match_witness :
  sig_yParity agreeing_record = Missing \/
  sig_yParity agreeing_record
    = Value (get_yParity
               (mkSignature (mkProps example_r ZeroHash 28 None) false)).
Proof.
  exact (proj1 (from_redundant_keys_match agreeing_record
                  (mkSignature (mkProps example_r ZeroHash 28 None) false)
                  eq_refl)).
Defined.

End Redundant.

(** ** The getters of an instance, handed back to [from] *)

Section Getters.

Lemma from_s_value sig (s : string) (fy : field string)
    (sbytes : list byte) :
  getBytes (HexString s) "value" = Ok sbytes ->
  List.length sbytes = 32 ->
  from_s sig (Value s) fy = Ok s.
Proof.
  intros Hsb Hlen. unfold from_s. cbn [notNull].
  pose proof (getBytes_isHexString s "value" sbytes Hsb) as Hsh.
  rewrite Hlen in Hsh. now rewrite Hsh.
Qed.

Lemma from_v_value sig (v : Z) (fy : field string) (fp : field Z) :
  v = 27%Z \/ v = 28%Z ->
  from_v sig (Value v) fy fp = Ok (None, v).
Proof. intros [-> | ->]; reflexivity. Qed.

Variable this : Signature.
Hypothesis this_valid : valid this.

(** X11.  The record [toJSON()] returns is accepted by [from], which
    builds from it an instance with the very strings [r] and [s] of the
    original and its [v], but without its [networkV]: the chain binding
    is in the JSON only as a string that [from] does not read. *)
Theorem from_toJSON :
  from (ofJSON (toJSON this))
    = Ok (mkSignature
            (mkProps (get_r this) (get_s this) (get_v this) None) false).
Proof.
  destruct this_valid as (Hr & (sbytes & Hsb & Hlen & Hc) & Hv & _).
  unfold ofJSON. cbn [from].
  rewrite (from_object_resolved _ _ (get_r this) (get_s this) sbytes None
             (get_v this));
    try assumption; try reflexivity.
  - now apply (from_s_value _ _ _ sbytes).
  - now apply from_v_value.
Qed.

(** X12.  An instance agrees with itself: the record that holds its [r],
    [s], [v], [yParity] and [yParityAndS] getters passes the cross-check
    of [from], which returns an instance with the same [r], [s] and
    [v]. *)
Theorem from_own_getters :
  exists yParityAndS : string,
    get_yParityAndS this = Ok yParityAndS /\
    from (SigObject (ofGetters this yParityAndS))
      = Ok (mkSignature
              (mkProps (get_r this) (get_s this) (get_v this) None) false).
Proof.
  destruct this_valid as (Hr & (sbytes & Hsb & Hlen & Hc) & Hv & _).
  eexists. split; [apply (get_yParityAndS_decoded this sbytes Hsb)|].
  cbn [from].
  rewrite (from_object_resolved _ _ (get_r this) (get_s this) sbytes None
             (get_v this));
    try assumption; try reflexivity.
  - cbv zeta. unfold ofGetters, get_yParity.
    cbn [sig_yParity sig_yParityAndS hasKey yParityDiffers
         yParityAndSDiffers andb].
    now rewrite Z.eqb_refl, String.eqb_refl.
  - now apply (from_s_value _ _ _ sbytes).
  - now apply from_v_value.
Qed.

(** X13.  The compact record [{ r, yParityAndS }] made of the [r] and the
    [yParityAndS] getter of an instance is accepted by [from], which
    recovers [v] from the top bit and the bytes of [s] from the rest; [s]
    comes back in lower-case digits, [r] as it was. *)
Theorem from_compact_record :
  exists (yParityAndS : string) (sbytes : list byte),
    get_yParityAndS this = Ok yParityAndS /\
    getBytes (HexString (get_s this)) "value" = Ok sbytes /\
    from (SigObject (compactRecord (get_r this) yParityAndS))
      = Ok (mkSignature
              (mkProps (get_r this) ("0x" ++ hexDigits sbytes) (get_v this)
                 None)
              false).
Proof.
  destruct this_valid as (Hr & (sbytes & Hsb & Hlen & Hc) & Hv & _).
  set (ybytes := if (get_v this =? 27)%Z then sbytes
                 else setHighBit sbytes).
  assert (List.length ybytes = 32) as Hylen
    by (unfold ybytes; destruct (_ =? _)%Z;
        [|rewrite length_setHighBit]; exact Hlen).
  assert (clearHighBit ybytes = sbytes) as Hclear
    by (unfold ybytes; destruct (_ =? _)%Z;
        [now apply clearHighBit_low | now apply clearHighBit_setHighBit]).
  assert (highBit ybytes = negb (get_v this =? 27)%Z) as Hhigh.
  { unfold ybytes. destruct (_ =? _)%Z; [exact Hc|].
    apply highBit_setHighBit. intros E. rewrite E in Hlen.
    discriminate Hlen. }
  exists ("0x" ++ hexDigits ybytes), sbytes.
  split; [apply (get_yParityAndS_decoded this sbytes Hsb)|].
  split; [exact Hsb|]. cbn [from].
  rewrite (from_object_resolved _ _ (get_r this)
             ("0x" ++ hexDigits sbytes) sbytes None (get_v this));
    try assumption; try reflexivity.
  - cbv zeta. unfold compactRecord.
    cbn [sig_yParity sig_yParityAndS hasKey yParityDiffers
         yParityAndSDiffers andb negb assertError assertArgument bind].
    fold ybytes. now rewrite String.eqb_refl.
  - unfold compactRecord, from_s.
    cbn [sig_s sig_yParityAndS notNull].
    rewrite (isHexString_hexDigits ybytes 32 Hylen).
    cbn [assertError assertArgument bind].
    rewrite getBytes_hexDigits. cbn [bind].
    now rewrite hexlify_bytes, Hclear.
  - apply getBytes_hexDigits.
  - unfold compactRecord, from_v.
    cbn [sig_v sig_yParity sig_yParityAndS notNull].
    rewrite (isHexString_hexDigits ybytes 32 Hylen).
    cbn [assertError assertArgument bind].
    rewrite getBytes_hexDigits. cbn [bind]. rewrite Hhigh.
    destruct Hv as [-> | ->]; reflexivity.
Qed.

End Getters.

(** X11, X12 and X13 at the chain-bound instance with an upper-case
    [r]. *)
Lemma upper_case_instance_valid : valid upper_case_instance.
Proof.
  split; [reflexivity|]. split; [|split; [left; reflexivity|]].
  - exists zero_bytes. repeat split; reflexivity.
  - right. exists 37%Z. split; [reflexivity|]. discriminate.
Defined.

Lemma from_toJSON_witness :
  from (ofJSON (toJSON upper_case_instance))
    = Ok (mkSignature (mkProps upper_case_r ZeroHash 27 None) false).
Proof. exact (from_toJSON upper_case_instance upper_case_instance_valid).
Defined.

Lemma from_own_getters_witness :
  exists yParityAndS : string,
    from (SigObject (ofGetters upper_case_instance yParityAndS))
      = Ok (mkSignature (mkProps upper_case_r ZeroHash 27 None) false).
Proof.
  destruct (from_own_getters upper_case_instance upper_case_instance_valid)
    as (y & _ & H).
  exists y. exact H.
Defined.

Lemma from_compact_record_witness :
  exists yParityAndS : string,
    from (SigObject (compactRecord upper_case_r yParityAndS))
      = Ok (mkSignature (mkProps upper_case_r ZeroHash 27 None) false).
Proof.
  destruct (from_compact_record upper_case_instance
              upper_case_instance_valid) as (y & sb & _ & Hsb & H).
  injection Hsb as <-. exists y. exact H.
Defined.

(** ** The layout of the binary forms *)

(** X14.  For an instance that satisfies the invariants, [serialized] is a
    string of 132 characters that decodes to the 32 bytes of [r], the 32
    bytes of [s] and one byte, 0x1b for [v = 27] and 0x1c for [v = 28];
    [compactSerialized] is a string of 130 characters that decodes to the
    bytes of [r] and 32 more, whose top bit is set exactly when [v] is 28
    and which are the bytes of [s] once that bit is cleared. *)
Theorem serialized_layout (this : Signature) :
  valid this ->
  exists (rbytes sbytes cbytes : list byte) (serialized compact : string),
    getBytes (HexString (get_r this)) "value" = Ok rbytes /\
    getBytes (HexString (get_s this)) "value" = Ok sbytes /\
    get_serialized this = Ok serialized /\
    String.length serialized = 132 /\
    getBytes (HexString serialized) "value"
      = Ok (rbytes ++ sbytes ++
            [if (get_v this =? 27)%Z then x1b else x1c])%list /\
    get_compactSerialized this = Ok compact /\
    String.length compact = 130 /\
    getBytes (HexString compact) "value" = Ok (rbytes ++ cbytes)%list /\
    List.length cbytes = 32 /\
    highBit cbytes = negb (get_v this =? 27)%Z /\
    clearHighBit cbytes = sbytes.
Proof.
  intros (Hr & (sbytes & Hsb & Hslen & Hc) & Hv & _).
  destruct (isHexString_getBytes _ 32 "value" Hr) as (rbytes & Hrb & Hrlen).
  set (cbytes := if (get_v this =? 27)%Z then sbytes
                 else setHighBit sbytes).
  assert (List.length cbytes = 32) as Hclen
    by (unfold cbytes; destruct (_ =? _)%Z;
        [|rewrite length_setHighBit]; exact Hslen).
  exists rbytes, sbytes, cbytes. do 2 eexists.
  split; [exact Hrb|]. split; [exact Hsb|].
  split; [apply (get_serialized_decoded this rbytes sbytes Hrb Hsb)|].
  split.
  { cbn [String.append String.length]. rewrite length_hexDigits.
    rewrite !length_app, Hrlen, Hslen. reflexivity. }
  split; [apply getBytes_hexDigits|].
  split; [apply (get_compactSerialized_decoded this rbytes sbytes Hrb Hsb)|].
  fold cbytes. split.
  { cbn [String.append String.length]. rewrite length_hexDigits.
    rewrite length_app, Hrlen, Hclen. reflexivity. }
  split; [apply getBytes_hexDigits|]. split; [exact Hclen|].
  unfold cbytes. destruct (get_v this =? 27)%Z.
  - split; [exact Hc | now apply clearHighBit_low].
  - split; [|now apply clearHighBit_setHighBit].
    apply highBit_setHighBit. intros E. rewrite E in Hslen.
    discriminate Hslen.
Qed.

(** X14 at the chain-bound instance with an upper-case [r]. *)
Lemma serialized_layout_witness :
  exists serialized : string,
    get_serialized upper_case_instance = Ok serialized /\
    String.length serialized = 132.
Proof.
  destruct (serialized_layout upper_case_instance upper_case_instance_valid)
    as (rb & sb & cb & serialized & compact & _ & _ & Hser & Hlen & _).
  exists serialized. split; [exact Hser | exact Hlen].
Defined.

(** ** What the setters accept, write and leave alone *)

Section Setters.

Lemma getBytes_dataLength (data : BytesLike) (bytes : list byte) :
  getBytes data "value" = Ok bytes ->
  dataLength data = Ok (List.length bytes).
Proof.
  intros Hb. destruct data as [str|l]; unfold dataLength.
  - destruct (isHexString str WholeBytes) eqn:Hw;
      [|rewrite Hb; reflexivity].
    pose proof (getBytes_string_length _ _ _ Hb) as Hlen. rewrite Hlen.
    replace (2 + 2 * List.length bytes - 2) with (List.length bytes * 2)
      by lia.
    now rewrite Nat.div_mul.
  - rewrite Hb. reflexivity.
Qed.

(** X15.  On an instance that is not frozen, the [r] and [s] setters take
    any [BytesLike] of 32 bytes, a byte array or a hex string in either
    case, and store its lower-case hex string; the [s] setter does so
    only when the top bit of the first byte is clear, and otherwise throws
    the non-canonical-s error and stores nothing. *)
Theorem setters_store_lower_case (value : BytesLike) (bytes : list byte)
    (this : Signature) :
  getBytes value "value" = Ok bytes ->
  List.length bytes = 32 ->
  frozen this = false ->
  set_r value this =
    (Ok tt,
     mkSignature (write_r ("0x" ++ hexDigits bytes) (props this)) false) /\
  (highBit bytes = false ->
   set_s value this =
     (Ok tt,
      mkSignature (write_s ("0x" ++ hexDigits bytes) (props this)) false)) /\
  (highBit bytes = true ->
   set_s value this =
     (Throw (mkError INVALID_ARGUMENT "non-canonical s" "value"
               (Some (SuppliedBytes value))),
      this)).
Proof.
  intros Hb Hlen Hf. unfold set_r, set_s, validated, hexlify.
  rewrite (getBytes_dataLength value bytes Hb), Hlen, Hb.
  cbn [bind Nat.eqb assertArgument]. unfold setStore. rewrite Hf.
  split; [reflexivity|]. unfold highBit. split; intros Hh.
  - apply negb_false_iff in Hh. now rewrite Hh.
  - apply negb_true_iff in Hh. now rewrite Hh.
Qed.

(** X15 at an [r] written in upper case. *)
Lemma setters_store_lower_case_witness :
  get_r (snd (set_r (HexString upper_case_r) (new ZeroHash ZeroHash 27)))
    = lower_case_r.
Proof.
  destruct (getBytes (HexString upper_case_r) "value") as [bytes|e] eqn:Hb;
    [|discriminate Hb].
  pose proof (setters_store_lower_case (HexString upper_case_r) bytes
                (new ZeroHash ZeroHash 27) Hb) as H.
  injection Hb as <-.
  destruct (H eq_refl eq_refl) as (Hr & _). now rewrite Hr.
Defined.

(** X16.  The [v] setter succeeds exactly when the instance is not frozen
    and the value is 27 or 28, which it then stores: it does not
    normalize, so 0, 1 and every EIP-155 value, which [from] accepts as
    [v], are refused. *)
Theorem set_v_accepts_27_28 (value : BigNumberish) (this : Signature) :
  (fst (set_v value this) = Ok tt <->
   frozen this = false /\ (value = 27%Z \/ value = 28%Z)) /\
  (fst (set_v value this) = Ok tt ->
   snd (set_v value this) = mkSignature (write_v value (props this)) false).
Proof.
  unfold set_v, validated, getNumber, assertArgument, setStore.
  destruct ((- maxValue <=? value)%Z && (value <=? maxValue)%Z) eqn:Hrange.
  - cbn [bind].
    destruct (Z.eqb_spec value 27) as [->|H27];
      [|destruct (Z.eqb_spec value 28) as [->|H28]]; cbn [orb bind].
    + destruct (frozen this); cbn [fst snd].
      * split; [|discriminate].
        split; [discriminate | intros (E & _); discriminate E].
      * split; [|reflexivity]. split; [|reflexivity]. auto.
    + destruct (frozen this); cbn [fst snd].
      * split; [|discriminate].
        split; [discriminate | intros (E & _); discriminate E].
      * split; [|reflexivity]. split; [|reflexivity]. auto.
    + cbn [fst snd]. split; [|discriminate].
      split; [discriminate|]. intros (_ & [E|E]); contradiction.
  - cbn [bind fst snd]. split; [|discriminate].
    split; [discriminate|]. intros (_ & [-> | ->]); discriminate Hrange.
Qed.

Lemma validated_frame {A} (check : Result A) (key : A -> string)
    (write : A -> Props -> Props) (this : Signature) :
  let after := snd (validated check (fun a => setStore (key a) (write a))
                      this) in
  frozen after = frozen this /\
  (after = this \/
   exists a : A, frozen this = false /\ props after = write a (props this)).
Proof.
  unfold validated, setStore. destruct check as [a|e]; [|now split; [|left]].
  destruct (frozen this) eqn:Hf; cbn [snd].
  - now split; [|left].
  - split; [reflexivity|]. right. now exists a.
Qed.

(** X17.  A setter writes its own field and nothing else: after a call of
    the [r], [s] or [v] setter, whether it returned or threw, the other
    two fields, [networkV] and the frozen state are what they were. *)
Theorem setters_frame (this : Signature) :
  (forall value,
     let after := snd (set_r value this) in
     get_s after = get_s this /\ get_v after = get_v this /\
     get_networkV after = get_networkV this /\
     isFrozen after = isFrozen this) /\
  (forall value,
     let after := snd (set_s value this) in
     get_r after = get_r this /\ get_v after = get_v this /\
     get_networkV after = get_networkV this /\
     isFrozen after = isFrozen this) /\
  (forall value,
     let after := snd (set_v value this) in
     get_r after = get_r this /\ get_s after = get_s this /\
     get_networkV after = get_networkV this /\
     isFrozen after = isFrozen this).
Proof.
  split; [|split]; intros value after;
    unfold get_r, get_s, get_v, get_networkV, getStore, isFrozen.
  - destruct (validated_frame
                (len <- dataLength value ;;
                 assertArgument (Nat.eqb len 32) "invalid r" "value"
                   (SuppliedBytes value) ;;;
                 hexlify value)
                (fun _ => "r") write_r this) as (Hf & [E | (a & _ & E)]);
      fold (set_r value this) in *; fold after in Hf, E.
    + now rewrite E.
    + rewrite E. now repeat split.
  - destruct (validated_frame
                (len <- dataLength value ;;
                 assertArgument (Nat.eqb len 32) "invalid r" "value"
                   (SuppliedBytes value) ;;;
                 bytes <- getBytes value "value" ;;
                 assertArgument (N.land (first bytes) 128 =? 0)%N
                   "non-canonical s" "value" (SuppliedBytes value) ;;;
                 hexlify value)
                (fun _ => "s") write_s this) as (Hf & [E | (a & _ & E)]);
      fold (set_s value this) in *; fold after in Hf, E.
    + now rewrite E.
    + rewrite E. now repeat split.
  - destruct (validated_frame
                (v <- getNumber value "value" ;;
                 assertArgument ((v =? 27)%Z || (v =? 28)%Z) "invalid v" "v"
                   (SuppliedNumber value) ;;;
                 Ok v)
                (fun _ => "v") write_v this) as (Hf & [E | (a & _ & E)]);
      fold (set_v value this) in *; fold after in Hf, E.
    + now rewrite E.
    + rewrite E. now repeat split.
Qed.

End Setters.

(** X16 at 1, a [v] that [from] takes for 28. *)
Lemma set_v_accepts_27_28_witness :
  fst (set_v 1%Z (new ZeroHash ZeroHash 27)) <> Ok tt /\
  fst (set_v 28%Z (new ZeroHash ZeroHash 27)) = Ok tt.
Proof.
  split.
  - intros H.
    apply (proj1 (set_v_accepts_27_28 1%Z (new ZeroHash ZeroHash 27))) in H
      as (_ & [E|E]); discriminate E.
  - apply (proj1 (set_v_accepts_27_28 28%Z (new ZeroHash ZeroHash 27))).
    split; [reflexivity | now right].
Defined.

(** ** Sequences of calls *)

Section Calls.

Lemma call_frozen (c : Call) (this : Signature) :
  frozen this = true -> snd (call c this) = this.
Proof.
  intros Hf. destruct c as [value|value|value|]; cbn [call].
  - destruct (frozen_setter_throws
                (len <- dataLength value ;;
                 assertArgument (Nat.eqb len 32) "invalid r" "value"
                   (SuppliedBytes value) ;;;
                 hexlify value)
                (fun _ => "r") write_r this Hf) as (e & He).
    unfold set_r. now rewrite He.
  - destruct (frozen_setter_throws
                (len <- dataLength value ;;
                 assertArgument (Nat.eqb len 32) "invalid r" "value"
                   (SuppliedBytes value) ;;;
                 bytes <- getBytes value "value" ;;
                 assertArgument (N.land (first bytes) 128 =? 0)%N
                   "non-canonical s" "value" (SuppliedBytes value) ;;;
                 hexlify value)
                (fun _ => "s") write_s this Hf) as (e & He).
    unfold set_s. now rewrite He.
  - destruct (frozen_setter_throws
                (v <- getNumber value "value" ;;
                 assertArgument ((v =? 27)%Z || (v =? 28)%Z) "invalid v" "v"
                   (SuppliedNumber value) ;;;
                 Ok v)
                (fun _ => "v") write_v this Hf) as (e & He).
    unfold set_v. now rewrite He.
  - unfold freeze. cbn [snd]. rewrite <- Hf. now destruct this.
Qed.

(** X18.  A frozen instance stays as it is under any sequence of setter
    and [freeze] calls: nothing unfreezes it and no field changes. *)
Theorem calls_on_frozen (cs : list Call) (this : Signature) :
  frozen this = true -> calls cs this = this.
Proof.
  intros Hf. induction cs as [|c rest IH]; [reflexivity|].
  cbn [calls]. now rewrite (call_frozen c this Hf).
Qed.

(** X18 at three calls on the frozen chain-bound instance. *)
Lemma calls_on_frozen_witness :
  let held :=
    mkSignature (mkProps example_r ZeroHash 27 (Some 37%Z)) true in
  calls [CallSetV 28%Z; CallSetR (HexString ZeroHash); CallFreeze] held
    = held.
Proof. intros held. now apply calls_on_frozen. Defined.

Lemma call_networkV (c : Call) (this : Signature) :
  get_networkV (snd (call c this)) = get_networkV this.
Proof.
  destruct c as [value|value|value|]; cbn [call].
  - now destruct (set_r_state value this) as [-> | (b & _ & _ & ->)].
  - now destruct (set_s_state value this) as [-> | (b & _ & _ & _ & ->)].
  - now destruct (set_v_state value this) as [-> | (_ & ->)].
  - reflexivity.
Qed.

Lemma call_reachable (c : Call) (this : Signature) :
  reachable this -> reachable (snd (call c this)).
Proof.
  destruct c; cbn [call]; intros H;
    [apply reach_set_r | apply reach_set_s | apply reach_set_v
    | apply reach_freeze]; exact H.
Qed.

(** X19.  No sequence of setter and [freeze] calls changes [networkV] or
    breaks the invariants of a reachable instance: [r] and [s] stay hex
    strings of 32 bytes, [s] canonical, [v] 27 or 28. *)
Theorem calls_keep_invariants (cs : list Call) (this : Signature) :
  reachable this ->
  get_networkV (calls cs this) = get_networkV this /\
  valid (calls cs this).
Proof.
  revert this. induction cs as [|c rest IH]; intros this Hreach.
  - split; [reflexivity | now apply reachable_valid].
  - cbn [calls].
    destruct (IH (snd (call c this)) (call_reachable c this Hreach))
      as (Hn & Hvalid).
    split; [|exact Hvalid].
    rewrite Hn. apply call_networkV.
Qed.

(** X19 at two setter calls on the chain-bound instance: [v] is now 28,
    [networkV] is still 37. *)
Lemma calls_keep_invariants_witness :
  let after :=
    calls [CallSetV 28%Z; CallSetR (HexString upper_case_r)]
      (mkSignature (mkProps example_r ZeroHash 27 (Some 37%Z)) false) in
  get_v after = 28%Z /\ get_networkV after = Some 37%Z.
Proof.
  intros after. split; [reflexivity|].
  exact (proj1 (calls_keep_invariants
                  [CallSetV 28%Z; CallSetR (HexString upper_case_r)]
                  _ reachable_chain_bound)).
Defined.

End Calls.

(** ** From a blob and back to it *)

Section Reserialize.

Lemma set_clear_byte (b : byte) :
  (N.land (Byte.to_N b) 128 =? 0)%N = false ->
  toUint8 (N.lor (Byte.to_N (toUint8 (N.land (Byte.to_N b) 127))) 128) = b.
Proof. destruct b; (reflexivity || discriminate). Qed.

Lemma setHighBit_clearHighBit (bytes : list byte) :
  highBit bytes = true -> setHighBit (clearHighBit bytes) = bytes.
Proof.
  destruct bytes as [|b rest]; [discriminate|].
  unfold highBit, first. cbn [hd setHighBit clearHighBit].
  intros H. apply negb_true_iff in H. now rewrite set_clear_byte.
Qed.

Lemma slice_0_32 (bytes : list byte) : slice 0 32 bytes = firstn 32 bytes.
Proof. reflexivity. Qed.

Lemma slice_32_64 (bytes : list byte) :
  slice 32 64 bytes = firstn 32 (skipn 32 bytes).
Proof. reflexivity. Qed.

Lemma slices_64 (bytes : list byte) :
  List.length bytes = 64 ->
  (slice 0 32 bytes ++ slice 32 64 bytes)%list = bytes.
Proof.
  intros Hlen. rewrite slice_0_32, slice_32_64.
  rewrite (firstn_all2 (n := 32) (skipn 32 bytes))
    by (rewrite length_skipn; lia).
  apply firstn_skipn.
Qed.

Lemma slices_first_64 (bytes : list byte) :
  List.length bytes = 65 ->
  (slice 0 32 bytes ++ slice 32 64 bytes)%list = firstn 64 bytes.
Proof.
  intros Hlen. rewrite slice_0_32, slice_32_64.
  rewrite <- (firstn_skipn 32 bytes) at 3.
  rewrite firstn_app, length_firstn, Hlen.
  change (64 - Nat.min 32 65) with 32.
  now rewrite firstn_firstn.
Qed.

Lemma slices_65 (bytes : list byte) :
  List.length bytes = 65 ->
  (slice 0 32 bytes ++ slice 32 64 bytes ++ [nth 64 bytes x00])%list
    = bytes.
Proof.
  intros Hlen. rewrite app_assoc, (slices_first_64 bytes Hlen).
  rewrite <- (firstn_skipn 64 bytes) at 3. f_equal.
  assert (List.length (skipn 64 bytes) = 1) as H1
    by (rewrite length_skipn; lia).
  rewrite <- (firstn_skipn 64 bytes) at 1.
  rewrite app_nth2 by (rewrite length_firstn; lia).
  rewrite length_firstn, Hlen. change (64 - Nat.min 64 65) with 0.
  destruct (skipn 64 bytes) as [|b [|c rest]]; try discriminate H1.
  reflexivity.
Qed.

Variables (str : string) (bytes : list byte).
Hypothesis decoded : getBytes (HexString str) "signature" = Ok bytes.

(** X20.  A compact blob comes back from the instance built of it:
    [from] on a string that decodes to 64 bytes returns an instance whose
    [compactSerialized] is the lower-case hex string of those bytes. *)
Theorem compactSerialized_of_blob :
  List.length bytes = 64 ->
  exists result : Signature,
    from (SigString str) = Ok result /\
    get_compactSerialized result = Ok ("0x" ++ hexDigits bytes).
Proof.
  intros Hlen. eexists. split; [now apply (from_blob64 str bytes)|].
  rewrite (get_compactSerialized_decoded _ (slice 0 32 bytes)
             (clearHighBit (slice 32 64 bytes)))
    by apply getBytes_hexDigits.
  do 2 f_equal. unfold get_v, getStore, new. cbn [props v].
  assert ((if ((if highBit (slice 32 64 bytes) then 28 else 27) =? 27)%Z
           then clearHighBit (slice 32 64 bytes)
           else setHighBit (clearHighBit (slice 32 64 bytes)))
          = slice 32 64 bytes) as E.
  { destruct (highBit (slice 32 64 bytes)) eqn:Hh.
    - change (28 =? 27)%Z with false. cbv iota.
      now apply setHighBit_clearHighBit.
    - change (27 =? 27)%Z with true. cbv iota.
      now apply clearHighBit_low. }
  rewrite E. now rewrite slices_64.
Qed.

(** X21.  A blob of 65 bytes with a canonical [s] comes back with its last
    byte normalized: the [serialized] of the instance [from] builds is
    the lower-case hex string of the first 64 bytes followed by 0x1b or
    0x1c, so it is the blob itself when that is its last byte. *)
Theorem serialized_of_blob :
  List.length bytes = 65 ->
  N.testbit (Byte.to_N (nth 32 bytes x00)) 7 = false ->
  exists result : Signature,
    from (SigString str) = Ok result /\
    get_serialized result =
      Ok ("0x" ++ hexDigits
            (firstn 64 bytes ++
             [if (get_v result =? 27)%Z then x1b else x1c])) /\
    (nth 64 bytes x00 = x1b \/ nth 64 bytes x00 = x1c ->
     get_serialized result = Ok ("0x" ++ hexDigits bytes)).
Proof.
  intros Hlen Hbit. eexists.
  split.
  { rewrite (from_blob65 str bytes decoded Hlen).
    now rewrite (highBit_slice32 bytes), Hbit by lia. }
  rewrite (get_serialized_decoded _ (slice 0 32 bytes) (slice 32 64 bytes))
    by apply getBytes_hexDigits.
  split; [now rewrite <- (slices_first_64 bytes Hlen), <- app_assoc|].
  intros Hlast. unfold get_v, getStore, new. cbn [props v].
  assert ((if (getNormalizedV (Z.of_N (Byte.to_N (nth 64 bytes x00)))
               =? 27)%Z then x1b else x1c) = nth 64 bytes x00) as E
    by (destruct Hlast as [H | H]; rewrite H; reflexivity).
  rewrite E. now rewrite (slices_65 bytes Hlen).
Qed.

End Reserialize.

(** X20 and X21 at the compact blob of section 8 and at a blob of 65 bytes
    ending in 0x1c. *)
Lemma compactSerialized_of_blob_witness :
  exists result : Signature,
    from (SigString example_blob64) = Ok result /\
    get_compactSerialized result = Ok example_blob64.
Proof.
  destruct (getBytes (HexString example_blob64) "signature")
    as [bytes|e] eqn:Hdec; [|discriminate Hdec].
  pose proof (compactSerialized_of_blob example_blob64 bytes Hdec) as H.
  injection Hdec as <-. exact (H eq_refl).
Defined.

Lemma serialized_of_blob_witness :
  exists result : Signature,
    from (SigString (example_r ++ substring 2 64 ZeroHash ++ "1c"))
      = Ok result /\
    get_serialized result
      = Ok (example_r ++ substring 2 64 ZeroHash ++ "1c").
Proof.
  pose (blob := example_r ++ substring 2 64 ZeroHash ++ "1c").
  destruct (getBytes (HexString blob) "signature") as [bytes|e] eqn:Hdec;
    [|discriminate Hdec].
  pose proof (serialized_of_blob blob bytes Hdec) as H.
  injection Hdec as <-.
  destruct (H eq_refl eq_refl) as (result & Hfrom & _ & Hser).
  exists result. split; [exact Hfrom|]. apply Hser. now right.
Defined.

(** ** The invariants, from any input *)

(** X22.  Whatever [from] returns satisfies the invariants of the data
    model, provided an instance handed to it does: [r] and [s] are hex
    strings of 32 bytes, the top bit of [s] is clear, [v] is 27 or 28 and
    [networkV] is null or at least 35. *)
Theorem from_establishes_invariants (sig : SignatureLike)
    (result : Signature) :
  (forall this, sig = SigInstance this -> valid this) ->
  from sig = Ok result ->
  valid result.
Proof.
  intros Hsig Hfrom. destruct sig as [|str|inst|o].
  - injection Hfrom as <-. unfold valid. cbn.
    split; [reflexivity|]. split; [|split; [now left | now left]].
    exists zero_bytes. now repeat split.
  - now apply (from_string_valid str).
  - cbn [from] in Hfrom. specialize (Hsig inst eq_refl).
    rewrite (clone_exact inst (valid_networkV inst Hsig)) in Hfrom.
    injection Hfrom as <-. now apply (valid_props inst).
  - now apply (from_object_valid (SigObject o) o).
Qed.

(** X22 at the record whose keys all agree. *)
Lemma from_establishes_invariants_witness :
  valid (mkSignature (mkProps example_r ZeroHash 28 None) false).
Proof.
  apply (from_establishes_invariants (SigObject agreeing_record));
    [discriminate | reflexivity].
Defined.
